(** * oksana: USB camera capture, MJPEG streaming and the control channel

    A shallow embedding of [camera_manager.py] and [main.py].

    - Python values (what [json.loads] returns and what [send_json] takes)
      are an inductive type; dictionaries are [gmap string value].
    - The libraries the program calls (cv2, the [float] builtin,
      [json.loads]) are interfaces: every theorem holds for every driver,
      encoder and decoder.
    - [CameraManager] is a record. The code between two acquisitions of
      [self.lock] is one atomic step and a capture thread is a program
      counter into [_capture_loop], so that an interleaving of the callers
      with the capture threads is a list of labels. What the device answers
      (whether it opens, what a read returns) comes with the label.
    - A call that releases the lock on its way ([stop] around its [join],
      a setter between [_ensure_open] and its write) takes the steps the
      capture threads make in that window as an argument. The handlers of
      the control channel are coroutines of one event loop and call the
      camera synchronously: two such calls do not overlap.
    - Time is not modelled: the bounded [join] lets any window pass, and
      the sleeps are skipped. *)

From Stdlib Require Import ZArith String Ascii List Lia Bool.
From Stdlib Require Import Decimal DecimalString DecimalNat DecimalZ.
From Stdlib Require Import Floats Uint63.
From stdpp Require Import base gmap strings list.

Local Open Scope Z_scope.
Local Open Scope string_scope.

(** ** Text helpers *)

Definition CR : ascii := ascii_of_nat 13.
Definition LF : ascii := ascii_of_nat 10.
Definition CRLF : string := String CR (String LF EmptyString).

(** [str(n)] for a Python int. *)
Definition str_int (z : Z) : string := NilZero.string_of_int (Z.to_int z).
(** [str(n)] for a length. *)
Definition str_len (n : nat) : string := NilEmpty.string_of_uint (Nat.to_uint n).
(** Reading a decimal header value back. *)
Definition parse_len (s : string) : option nat :=
  match NilEmpty.uint_of_string s with
  | Some d => Some (Nat.of_uint d)
  | None => None
  end.

(** [s.encode("utf-8")] on ASCII text, and bytes literals. *)
Definition encode (s : string) : list Byte.byte := list_byte_of_string s.

(** ** Exceptions *)

Record exn := Raise { exn_class : string; exn_msg : string }.

Definition RuntimeError (m : string) : exn := Raise "RuntimeError" m.
Definition AttributeError (m : string) : exn := Raise "AttributeError" m.
Definition TypeError (m : string) : exn := Raise "TypeError" m.
Definition ValueError (m : string) : exn := Raise "ValueError" m.
Definition OverflowError (m : string) : exn := Raise "OverflowError" m.

(** [str(e)] *)
Definition str_exn (e : exn) : string := exn_msg e.

(** ** Python values *)

Set Warnings "-register-all".

Section Values.
Context {F : Type}.

Inductive value : Type :=
| PyNone
| PyBool (b : bool)
| PyInt (z : Z)
| PyFloat (f : F)
| PyStr (s : string)
| PyList (l : list value)
| PyDict (d : gmap string value).

(** [type(v).__name__] *)
Definition type_name (v : value) : string :=
  match v with
  | PyNone => "NoneType"
  | PyBool _ => "bool"
  | PyInt _ => "int"
  | PyFloat _ => "float"
  | PyStr _ => "str"
  | PyList _ => "list"
  | PyDict _ => "dict"
  end.

(** [v == "literal"] *)
Definition eq_str (v : value) (lit : string) : bool :=
  match v with
  | PyStr s => bool_decide (s = lit)
  | _ => false
  end.

(** [v is None] *)
Definition is_None (v : value) : bool :=
  match v with PyNone => true | _ => false end.

Definition is_dict (v : value) : bool :=
  match v with PyDict _ => true | _ => false end.

(** [msg.get(key)]: the method exists on dictionaries only. *)
Definition py_get (msg : value) (key : string) : exn + value :=
  match msg with
  | PyDict d => inr (default PyNone (d !! key))
  | _ => inl (AttributeError
                ("'" +:+ type_name msg +:+ "' object has no attribute 'get'"))
  end.
End Values.
Arguments value : clear implicits.

(** ** The Python runtime and cv2, as interfaces *)

(** [float_of_int] and [float_of_str] are the [float] builtin on an int and
    on a str (it raises [OverflowError], resp. [ValueError]); [json_loads]
    is [json.loads] where it returns, [None] where it raises; when it
    raises, [json_loads_other_error] is [None] for
    [json.JSONDecodeError] and the exception for anything else
    ([RecursionError] on deep nesting, [ValueError] on an integer literal
    beyond the digit limit);
    [double_of_int] is the conversion of an int argument to a C double in
    the cv2 bindings. *)
Class Python (F : Type) := {
  double_of_int : Z -> F;
  float_of_int : Z -> exn + F;
  float_of_str : string -> exn + F;
  json_loads : string -> option (value F);
  json_loads_other_error : string -> option exn;
}.

(** [dev_set] and [dev_get] are the capture backend behind
    [VideoCapture.set] and [VideoCapture.get]; [VideoWriter_fourcc] packs
    the four characters of a pixel format tag (it raises on any other
    number of characters); [imencode ext img params] is [cv2.imencode],
    [None] standing for [ok == False]. *)
Class Cv2 (F Frame Dev : Type) := {
  dev_set : Dev -> Z -> F -> bool * Dev;
  dev_get : Dev -> Z -> F;
  VideoWriter_fourcc : string -> exn + Z;
  imencode : string -> Frame -> list Z -> option (list Byte.byte);
}.

(** Constants of cv2 (videoio and imgcodecs). *)
Definition CAP_PROP_FRAME_WIDTH : Z := 3.
Definition CAP_PROP_FRAME_HEIGHT : Z := 4.
Definition CAP_PROP_FOURCC : Z := 6.
Definition CAP_PROP_GAIN : Z := 14.
Definition CAP_PROP_EXPOSURE : Z := 15.
Definition CAP_PROP_AUTO_EXPOSURE : Z := 21.
Definition CAP_PROP_ZOOM : Z := 27.
Definition CAP_PROP_FOCUS : Z := 28.
Definition CAP_PROP_AUTOFOCUS : Z := 39.
Definition CAP_PROP_AUTO_WB : Z := 44.
Definition CAP_V4L2 : Z := 200.
Definition IMWRITE_JPEG_QUALITY : Z := 1.

(** ** camera_manager.py *)

Section CameraManager.
Context {F Frame Dev : Type} `{!Python F} `{!Cv2 F Frame Dev}.

(** *** The [cv2.VideoCapture] object

    [vc_backend] is the capture backend the object holds ([None] before a
    successful open and after [release()]); [vc_writes] is the history of
    the property writes that reached the backend. *)
Record VideoCapture := mkVideoCapture {
  vc_backend : option Dev;
  vc_writes : list (Z * F);
}.

(** [cv2.VideoCapture(index, backend)] where it returns an object: whether
    a backend is attached is the driver's answer [r]. Where the call
    raises instead, the thread takes the step [BgOpenRaise] below. *)
Definition VideoCapture_new (r : option Dev) : VideoCapture :=
  mkVideoCapture r [].

Definition isOpened (c : VideoCapture) : bool :=
  match vc_backend c with Some _ => true | None => false end.

(** [cap.set(prop, v)]: without a backend nothing is written and the
    answer is [False]. *)
Definition vc_set (c : VideoCapture) (prop : Z) (v : F) : bool * VideoCapture :=
  match vc_backend c with
  | Some d =>
      let '(ok, d') := dev_set d prop v in
      (ok, mkVideoCapture (Some d') (vc_writes c ++ [(prop, v)]))
  | None => (false, c)
  end.

(** [cap.get(prop)]: [0.0] without a backend. *)
Definition vc_get (c : VideoCapture) (prop : Z) : F :=
  match vc_backend c with
  | Some d => dev_get d prop
  | None => double_of_int 0
  end.

(** *** [CameraManager] *)

Record Config := mkConfig {
  device_index : Z;
  width : Z;
  height : Z;
  prefer_backend : Z;
  fourcc : string;
}.

(** [CameraManager(device_index=0, width=1920, height=1080, fourcc="YUYV")]
    as [main.py] builds it. *)
Definition main_config : Config := mkConfig 0 1920 1080 CAP_V4L2 "YUYV".

(** Where a capture thread stands in [_capture_loop]. *)
Inductive pc :=
| PcOpen                         (* about to call [_open_camera] *)
| PcOpenFailed (e : exn)         (* in the handler, before its lock *)
| PcOpened (c : VideoCapture)    (* [cap] returned, before [self.cap = cap] *)
| PcCheck                        (* top of the loop, before its lock *)
| PcRead                         (* [cap_ref] fetched, before [read()] *)
| PcPublish (f : Frame)          (* frame read, before the publishing lock *)
| PcCleanup                      (* left the loop, before the final lock *)
| PcDone.

(** The object's fields, the threads it has started (in start order;
    [thread] is the index of [self.thread]) and what was printed. *)
Record CameraManager := mkCameraManager {
  config : Config;
  cap : option VideoCapture;
  running : bool;
  last_frame : option Frame;
  thread : option nat;
  threads : list pc;
  stdout : list string;
}.

Definition __init__ (cfg : Config) : CameraManager :=
  mkCameraManager cfg None false None None [] [].

Definition set_cap (c : option VideoCapture) (s : CameraManager) :=
  mkCameraManager (config s) c (running s) (last_frame s) (thread s)
                  (threads s) (stdout s).
Definition set_running (b : bool) (s : CameraManager) :=
  mkCameraManager (config s) (cap s) b (last_frame s) (thread s)
                  (threads s) (stdout s).
Definition set_last_frame (f : option Frame) (s : CameraManager) :=
  mkCameraManager (config s) (cap s) (running s) f (thread s)
                  (threads s) (stdout s).
Definition set_pc (i : nat) (p : pc) (s : CameraManager) :=
  mkCameraManager (config s) (cap s) (running s) (last_frame s) (thread s)
                  (<[i:=p]> (threads s)) (stdout s).
Definition spawn (s : CameraManager) :=
  mkCameraManager (config s) (cap s) (running s) (last_frame s)
                  (Some (length (threads s))) (threads s ++ [PcOpen])
                  (stdout s).
Definition print (line : string) (s : CameraManager) :=
  mkCameraManager (config s) (cap s) (running s) (last_frame s) (thread s)
                  (threads s) (stdout s ++ [line]).

(** [self.cap.release()] guarded by [if self.cap], then
    [self.cap = None; self.last_frame = None]: the released object is no
    longer referred to by the manager. A thread that still holds it in
    [cap_ref] reads through it, and what it reads is the driver's answer
    in [BgRead]. *)
Definition clear (s : CameraManager) : CameraManager :=
  set_last_frame None (set_cap None s).

(** *** [_open_camera]

    [fresh] is what [cv2.VideoCapture(self.device_index,
    self.prefer_backend)] returned. *)
Definition _open_camera (cfg : Config) (fresh : VideoCapture)
  : exn + VideoCapture :=
  if negb (isOpened fresh) then
    inl (RuntimeError ("Cannot open camera index=" +:+ str_int (device_index cfg)))
  else
    let after_fourcc :=
      if bool_decide (fourcc cfg = "") then inr fresh
      else match VideoWriter_fourcc (fourcc cfg) with
           | inl e => inl e
           | inr code => inr (snd (vc_set fresh CAP_PROP_FOURCC (double_of_int code)))
           end in
    match after_fourcc with
    | inl e => inl e
    | inr c0 =>
        let c1 := snd (vc_set c0 CAP_PROP_FRAME_WIDTH (double_of_int (width cfg))) in
        let c2 := snd (vc_set c1 CAP_PROP_FRAME_HEIGHT (double_of_int (height cfg))) in
        let c3 := snd (vc_set c2 CAP_PROP_AUTO_EXPOSURE (double_of_int 1)) in
        let c4 := snd (vc_set c3 CAP_PROP_AUTO_WB (double_of_int 0)) in
        let c5 := snd (vc_set c4 CAP_PROP_AUTOFOCUS (double_of_int 0)) in
        inr c5
    end.

(** *** [start] and [stop] *)

(** The locked test-and-set, then the thread is created and started. *)
Definition start (s : CameraManager) : CameraManager :=
  if running s then s else spawn (set_running true s).

(** First locked block of [stop]. *)
Definition stop_flag (s : CameraManager) : CameraManager :=
  set_running false s.

(** Last locked block of [stop]. *)
Definition stop_cleanup (s : CameraManager) : CameraManager := clear s.

(** *** [_capture_loop], one step at a time

    [BgOpen i r]: thread [i] runs [_open_camera], the driver answering [r].
    [BgOpenRaise i e]: thread [i] runs [_open_camera] and
    [cv2.VideoCapture(...)] itself raises [e] (an index or a backend that
    does not fit a C int).
    [BgLock i]: thread [i] runs its next locked block.
    [BgRead i r]: thread [i] runs [cap_ref.read()], which returns [r]
    ([None] for [ok == False]). *)
Inductive bg_label :=
| BgOpen (i : nat) (r : option Dev)
| BgOpenRaise (i : nat) (e : exn)
| BgLock (i : nat)
| BgRead (i : nat) (r : option Frame).

Definition bg_thread (l : bg_label) : nat :=
  match l with BgOpen i _ | BgOpenRaise i _ | BgLock i | BgRead i _ => i end.

(** A label that does not fit the thread's position leaves the state
    as it is. *)
Definition bg_step (l : bg_label) (s : CameraManager) : CameraManager :=
  match threads s !! bg_thread l, l with
  | Some PcOpen, BgOpen i r =>
      match _open_camera (config s) (VideoCapture_new r) with
      | inl e => set_pc i (PcOpenFailed e) s
      | inr c => set_pc i (PcOpened c) s
      end
  | Some PcOpen, BgOpenRaise i e => set_pc i (PcOpenFailed e) s
  | Some (PcOpenFailed e), BgLock i =>
      print ("[CAM] open failed: " +:+ str_exn e)
            (set_pc i PcDone (clear (set_running false s)))
  | Some (PcOpened c), BgLock i =>
      print "[CAM] capture started" (set_pc i PcCheck (set_cap (Some c) s))
  | Some PcCheck, BgLock i =>
      if negb (running s) then set_pc i PcCleanup s
      else match cap s with
           | None => set_pc i PcCleanup s
           | Some _ => set_pc i PcRead s
           end
  | Some PcRead, BgRead i r =>
      match r with
      | None => set_pc i PcCheck s
      | Some f => set_pc i (PcPublish f) s
      end
  | Some (PcPublish f), BgLock i =>
      set_pc i PcCheck (set_last_frame (Some f) s)
  | Some PcCleanup, BgLock i =>
      set_pc i PcDone (clear (print "[CAM] capture stopping" s))
  | _, _ => s
  end.

Definition run_bg (win : list bg_label) (s : CameraManager) : CameraManager :=
  fold_left (fun st l => bg_step l st) win s.

(** [stop()]: the flag, the bounded [join] during which the capture
    threads do [win], then the cleanup. *)
Definition stop (win : list bg_label) (s : CameraManager) : CameraManager :=
  stop_cleanup (run_bg win (stop_flag s)).

(** *** Property access *)

Definition not_open : exn := RuntimeError "Camera is not started/opened".

(** [_ensure_open]: [Some e] when it raises. *)
Definition _ensure_open (s : CameraManager) : option exn :=
  match cap s with
  | None => Some not_open
  | Some c => if isOpened c then None else Some not_open
  end.

Definition no_attribute (meth : string) : exn :=
  AttributeError ("'NoneType' object has no attribute '" +:+ meth +:+ "'").

(** The locked block of a setter: [ok = self.cap.set(prop, float(value))],
    [readback = self.cap.get(prop)], and the dictionary that is returned
    ([value] is a float already, [float] gives it back). *)
Definition write_prop (prop : Z) (v : F) (s : CameraManager)
  : (exn + value F) * CameraManager :=
  match cap s with
  | None => (inl (no_attribute "set"), s)
  | Some c =>
      let '(ok, c') := vc_set c prop v in
      let readback := vc_get c' prop in
      (inr (PyDict {[ "ok" := PyBool ok;
                      "requested" := PyFloat v;
                      "applied" := PyFloat readback ]}),
       set_cap (Some c') s)
  end.

(** A setter: [_ensure_open()] in a locked block of its own, then
    [write_prop]; [win] is what the capture threads do in between. *)
Definition set_property (prop : Z) (win : list bg_label) (v : F)
    (s : CameraManager) : (exn + value F) * CameraManager :=
  match _ensure_open s with
  | Some e => (inl e, s)
  | None => write_prop prop v (run_bg win s)
  end.

Definition set_white_balance_temperature := set_property 23.
Definition set_exposure := set_property CAP_PROP_EXPOSURE.
Definition set_gain := set_property CAP_PROP_GAIN.
Definition set_focus := set_property CAP_PROP_FOCUS.
Definition set_zoom := set_property CAP_PROP_ZOOM.

(** The locked block of [get_props]. *)
Definition read_props (s : CameraManager) : exn + value F :=
  match cap s with
  | None => inl (no_attribute "get")
  | Some c =>
      inr (PyDict
             {[ "white_balance_auto" := PyFloat (vc_get c CAP_PROP_AUTO_WB);
                "white_balance" := PyFloat (vc_get c 23);
                "auto_exposure" := PyFloat (vc_get c CAP_PROP_AUTO_EXPOSURE);
                "exposure" := PyFloat (vc_get c CAP_PROP_EXPOSURE);
                "gain" := PyFloat (vc_get c CAP_PROP_GAIN);
                "autofocus" := PyFloat (vc_get c CAP_PROP_AUTOFOCUS);
                "focus" := PyFloat (vc_get c CAP_PROP_FOCUS);
                "zoom" := PyFloat (vc_get c CAP_PROP_ZOOM);
                "width" := PyFloat (vc_get c CAP_PROP_FRAME_WIDTH);
                "height" := PyFloat (vc_get c CAP_PROP_FRAME_HEIGHT) ]})
  end.

Definition get_props (win : list bg_label) (s : CameraManager)
  : (exn + value F) * CameraManager :=
  match _ensure_open s with
  | Some e => (inl e, s)
  | None => (read_props (run_bg win s), run_bg win s)
  end.

(** *** Every interleaving

    The locked blocks of the callers and of the capture threads, in any
    order. *)
Inductive label :=
| CallStart
| StopFlag
| StopCleanup
| WriteProp (prop : Z) (v : F)
| Bg (l : bg_label).

Definition step (l : label) (s : CameraManager) : CameraManager :=
  match l with
  | CallStart => start s
  | StopFlag => stop_flag s
  | StopCleanup => stop_cleanup s
  | WriteProp prop v => snd (write_prop prop v s)
  | Bg b => bg_step b s
  end.

Definition run (tr : list label) (s : CameraManager) : CameraManager :=
  fold_left (fun st l => step l st) tr s.

(** A thread that has entered the loop and has not finished its cleanup. *)
Definition in_flight (p : pc) : bool :=
  match p with
  | PcCheck | PcRead | PcPublish _ | PcCleanup => true
  | _ => false
  end.

End CameraManager.

(** ** main.py *)

Section Main.
Context {F Frame Dev : Type} `{!Python F} `{!Cv2 F Frame Dev}.

Abbreviation CameraManager := (@CameraManager F Frame Dev).
Abbreviation bg_label := (@bg_label Frame Dev).

(** *** The control channel *)

(** The [float] builtin. *)
Definition py_float (v : value F) : exn + F :=
  match v with
  | PyFloat f => inr f
  | PyInt z => float_of_int z
  | PyBool b => float_of_int (if b then 1 else 0)
  | PyStr s => float_of_str s
  | _ => inl (TypeError
                ("float() argument must be a string or a real number, not '"
                 +:+ type_name v +:+ "'"))
  end.

Definition ack (action : string) : value F :=
  PyDict {[ "type" := PyStr "ack"; "action" := PyStr action ]}.

Definition ack_result (action : string) (result : value F) : value F :=
  PyDict {[ "type" := PyStr "ack"; "action" := PyStr action;
            "result" := result ]}.

Definition error_invalid_json (msg_text : string) : value F :=
  PyDict {[ "type" := PyStr "error"; "error" := PyStr "invalid_json";
            "raw" := PyStr msg_text ]}.

Definition error_missing_value (for_ : string) : value F :=
  PyDict {[ "type" := PyStr "error"; "error" := PyStr "missing_value";
            "for" := PyStr for_ ]}.

Definition error_unknown_type (msg_type : value F) : value F :=
  PyDict {[ "type" := PyStr "error"; "error" := PyStr "unknown_type";
            "msg_type" := msg_type ]}.

Definition error_exception (msg_type : value F) (e : exn) : value F :=
  PyDict {[ "type" := PyStr "error"; "error" := PyStr "exception";
            "msg_type" := msg_type; "detail" := PyStr (str_exn e) ]}.

Definition setter := list bg_label -> F -> CameraManager ->
                     (exn + value F) * CameraManager.

(** One [set_*] branch: [value = msg.get("value")], the [None] test,
    [camera.set_*(float(value))], the acknowledgement. [inl e] is an
    exception on its way to the [except Exception] clause. *)
Definition set_branch (name : string) (camera_set : setter)
    (win : list bg_label) (msg : value F) (s : CameraManager)
  : (exn + value F) * CameraManager :=
  match py_get msg "value" with
  | inl e => (inl e, s)
  | inr v =>
      if is_None v then (inr (error_missing_value name), s)
      else match py_float v with
           | inl e => (inl e, s)
           | inr x =>
               match camera_set win x s with
               | (inl e, s') => (inl e, s')
               | (inr result, s') => (inr (ack_result name result), s')
               end
           end
  end.

(** The body of the inner [try]: what is sent, or the exception raised. *)
Definition dispatch (win : list bg_label) (msg msg_type : value F)
    (s : CameraManager) : (exn + value F) * CameraManager :=
  if eq_str msg_type "camera_start" then
    (inr (ack "camera_start"), start s)
  else if eq_str msg_type "camera_stop" then
    (inr (ack "camera_stop"), stop win s)
  else if eq_str msg_type "set_white_balance_temperature" then
    set_branch "set_white_balance_temperature"
               set_white_balance_temperature win msg s
  else if eq_str msg_type "set_exposure" then
    set_branch "set_exposure" set_exposure win msg s
  else if eq_str msg_type "set_gain" then
    set_branch "set_gain" set_gain win msg s
  else if eq_str msg_type "set_focus" then
    set_branch "set_focus" set_focus win msg s
  else if eq_str msg_type "set_zoom" then
    set_branch "set_zoom" set_zoom win msg s
  else
    (inr (error_unknown_type msg_type), s).

(** What one pass through the [while True] body does with a received
    text: it sends one message and goes on, or an exception leaves the
    loop. *)
Inductive outcome :=
| Sent (response : value F)
| Escaped (e : exn).

Definition on_text (win : list bg_label) (msg_text : string)
    (s : CameraManager) : outcome * CameraManager :=
  let s := print ("[WS] received:" +:+ msg_text) s in
  match json_loads msg_text with
  | None =>
      match json_loads_other_error msg_text with
      | None => (Sent (error_invalid_json msg_text), s)
      | Some e => (Escaped e, s)
      end
  | Some msg =>
      match py_get msg "type" with
      | inl e => (Escaped e, s)
      | inr msg_type =>
          match dispatch win msg msg_type s with
          | (inr response, s') => (Sent response, s')
          | (inl e, s') => (Sent (error_exception msg_type e), s')
          end
      end
  end.

(** The receive loop over the texts of a connection, each with what the
    capture threads do during its handling; when they are exhausted
    [receive_text] raises [WebSocketDisconnect]. The result is the
    messages sent and the exception that left the loop, if any. *)
Fixpoint receive_loop (inbox : list (string * list bg_label))
    (s : CameraManager) : list (value F) * option exn * CameraManager :=
  match inbox with
  | [] => ([], None, print "[WS] client disconnected" s)
  | (msg_text, win) :: rest =>
      match on_text win msg_text s with
      | (Sent r, s') =>
          let '(rs, e, s'') := receive_loop rest s' in (r :: rs, e, s'')
      | (Escaped e, s') => ([], Some e, s')
      end
  end.

(** [ws_control]: the loop, then [finally: camera.stop()]. *)
Definition ws_control (inbox : list (string * list bg_label))
    (final_win : list bg_label) (s : CameraManager)
  : list (value F) * option exn * CameraManager :=
  let '(rs, e, s') := receive_loop inbox (print "[WS] client connected" s) in
  (rs, e, stop final_win s').

(** *** The stream *)

Definition not_started : Z * string :=
  (503, "Camera is not started. Use WS camera_start first.").

Definition media_type : string := "multipart/x-mixed-replace; boundary=frame".

(** [mjpeg]: the HTTP error, or a streaming response of that media type
    whose body is [mjpeg_generator]. *)
Definition mjpeg (s : CameraManager) : (Z * string) + string :=
  if negb (running s) then inl not_started else inr media_type.

Definition boundary : list Byte.byte := encode ("--frame" +:+ CRLF).

Definition part (jpg_bytes : list Byte.byte) : list (list Byte.byte) :=
  [ boundary;
    encode ("Content-Type: image/jpeg" +:+ CRLF);
    encode ("Content-Length: " +:+ str_len (length jpg_bytes) +:+ CRLF +:+ CRLF);
    jpg_bytes;
    encode CRLF ].

Inductive iteration :=
| Break
| Continue
| Yield (chunks : list (list Byte.byte)).

(** One pass through the generator's loop, on what it read under the
    lock. *)
Definition mjpeg_iteration (running : bool) (frame : option Frame) : iteration :=
  if negb running then Break
  else match frame with
       | None => Continue
       | Some fr =>
           match imencode ".jpg" fr [IMWRITE_JPEG_QUALITY; 100] with
           | None => Continue
           | Some jpg_bytes => Yield (part jpg_bytes)
           end
       end.

(** What the generator reads under the lock. *)
Definition observe (s : CameraManager) : bool * option Frame :=
  (running s, last_frame s).

(** The generator over its successive observations: the chunks yielded,
    and whether it has returned. *)
Fixpoint mjpeg_generator (obs : list (bool * option Frame))
  : list (list Byte.byte) * bool :=
  match obs with
  | [] => ([], false)
  | (running, frame) :: rest =>
      match mjpeg_iteration running frame with
      | Break => ([], true)
      | Continue => mjpeg_generator rest
      | Yield chunks =>
          let '(out, returned) := mjpeg_generator rest in
          ((chunks ++ out)%list, returned)
      end
  end.

End Main.

(** ** Vocabulary of the properties *)

Section Vocabulary.
Context {F Frame Dev : Type} `{!Python F} `{!Cv2 F Frame Dev}.

Abbreviation CameraManager := (@CameraManager F Frame Dev).
Abbreviation bg_label := (@bg_label Frame Dev).

(** The five property setters and the [set_*] message types, which carry
    the setters' names. *)
Inductive setter_id :=
| WhiteBalanceTemperature | Exposure | Gain | Focus | Zoom.

Definition setter_name (k : setter_id) : string :=
  match k with
  | WhiteBalanceTemperature => "set_white_balance_temperature"
  | Exposure => "set_exposure"
  | Gain => "set_gain"
  | Focus => "set_focus"
  | Zoom => "set_zoom"
  end.

Definition setter_prop (k : setter_id) : Z :=
  match k with
  | WhiteBalanceTemperature => 23
  | Exposure => CAP_PROP_EXPOSURE
  | Gain => CAP_PROP_GAIN
  | Focus => CAP_PROP_FOCUS
  | Zoom => CAP_PROP_ZOOM
  end.

Definition setter_fun (k : setter_id) : @setter F Frame Dev :=
  match k with
  | WhiteBalanceTemperature => set_white_balance_temperature
  | Exposure => set_exposure
  | Gain => set_gain
  | Focus => set_focus
  | Zoom => set_zoom
  end.

(** The device session is open: what [_ensure_open] tests. *)
Definition is_open (s : CameraManager) : bool :=
  match cap s with
  | Some c => isOpened c
  | None => false
  end.

(** Lifecycle commands, interleaved with steps of the capture threads;
    [camera_stop] carries what the threads do while [stop] waits in
    [join]. *)
Inductive lifecycle := camera_start | camera_stop.

Inductive event :=
| CameraStart
| CameraStop (win : list bg_label)
| Background (l : bg_label).

Definition exec_event (ev : event) (s : CameraManager) : CameraManager :=
  match ev with
  | CameraStart => start s
  | CameraStop win => stop win s
  | Background l => bg_step l s
  end.

Definition exec (evs : list event) (s : CameraManager) : CameraManager :=
  fold_left (fun st ev => exec_event ev st) evs s.

Definition command_of (ev : event) : option lifecycle :=
  match ev with
  | CameraStart => Some camera_start
  | CameraStop _ => Some camera_stop
  | Background _ => None
  end.

Fixpoint last_command (evs : list event) : option lifecycle :=
  match evs with
  | [] => None
  | ev :: rest =>
      match last_command rest with
      | Some c => Some c
      | None => command_of ev
      end
  end.

Definition is_start (c : lifecycle) : bool :=
  match c with camera_start => true | camera_stop => false end.

(** The steps of the capture threads in a run, those inside [stop]
    included. *)
Definition bg_labels (evs : list event) : list bg_label :=
  flat_map (fun ev => match ev with
                      | CameraStart => []
                      | CameraStop win => win
                      | Background l => [l]
                      end) evs.

(** The open that a label performs, if it performs one, succeeds. *)
Definition open_succeeds (cfg : Config) (l : bg_label) : bool :=
  match l with
  | BgOpen _ r =>
      match _open_camera cfg (VideoCapture_new r) with
      | inr _ => true
      | inl _ => false
      end
  | BgOpenRaise _ _ => false
  | _ => true
  end.

(** The property writes of a successful open, in order. *)
Definition open_writes cfg : list (Z * F) :=
  ((if bool_decide (fourcc cfg = "") then []
    else match VideoWriter_fourcc (fourcc cfg) with
         | inr code => [(CAP_PROP_FOURCC, double_of_int code)]
         | inl _ => []
         end) ++
   [ (CAP_PROP_FRAME_WIDTH, double_of_int (width cfg));
     (CAP_PROP_FRAME_HEIGHT, double_of_int (height cfg));
     (CAP_PROP_AUTO_EXPOSURE, double_of_int 1);
     (CAP_PROP_AUTO_WB, double_of_int 0);
     (CAP_PROP_AUTOFOCUS, double_of_int 0) ])%list.

(** A frame in the slot has a producer: some capture thread is in flight. *)
Definition frame_has_producer (s : CameraManager) : Prop :=
  last_frame s = None ∨
  ∃ i p, threads s !! i = Some p ∧ in_flight p = true.

(** No thread stands in the handler of a failed open. *)
Definition no_failed_open (s : CameraManager) : Prop :=
  ∀ i e, threads s !! i ≠ Some (PcOpenFailed e).

(** Reading the value of a [Content-Length] header line. *)
Definition is_digit (a : ascii) : bool :=
  (48 <=? nat_of_ascii a)%nat && (nat_of_ascii a <=? 57)%nat.

Fixpoint take_digits (s : string) : string :=
  match s with
  | String a r => if is_digit a then String a (take_digits r) else EmptyString
  | EmptyString => EmptyString
  end.

Fixpoint strip_prefix (p s : string) : option string :=
  match p, s with
  | EmptyString, _ => Some s
  | String a p', String b s' =>
      if Ascii.eqb a b then strip_prefix p' s' else None
  | _, _ => None
  end.

Definition content_length (header : list Byte.byte) : option nat :=
  match strip_prefix "Content-Length: " (string_of_list_byte header) with
  | Some rest => parse_len (take_digits rest)
  | None => None
  end.

(** The response carries ["type"] ["ack"] or ["error"]. *)
Definition ack_or_error (r : value F) : bool :=
  match r with
  | PyDict d =>
      match d !! "type" with
      | Some t => eq_str t "ack" || eq_str t "error"
      | None => false
      end
  | _ => false
  end.

End Vocabulary.

(** ** A small runtime and driver for the concrete runs

    Doubles are machine floats; the backend is a table of property values
    that refuses to move the zoom; the encoder wraps the pixels between the
    JPEG start and end markers; [loads] knows the texts of the runs below
    with what [json.loads] returns on them. *)

Module Demo.

Definition DQ : string := String (ascii_of_nat 34) EmptyString.
Definition q (s : string) : string := DQ +:+ s +:+ DQ.

Definition F := PrimFloat.float.
Definition Frame := list Byte.byte.
Definition Dev := gmap Z F.

Definition of_Z (z : Z) : F :=
  if (z <? 0)%Z then PrimFloat.opp (PrimFloat.of_uint63 (Uint63.of_Z (- z)%Z))
  else PrimFloat.of_uint63 (Uint63.of_Z z).

Definition float_int (z : Z) : exn + F :=
  if (Z.abs z <? 2 ^ 53)%Z then inr (of_Z z)
  else inl (OverflowError "int too large to convert to float").

Definition float_str (s : string) : exn + F :=
  match NilZero.int_of_string s with
  | Some d => float_int (Z.of_int d)
  | None => inl (ValueError ("could not convert string to float: '" +:+ s +:+ "'"))
  end.

Definition text_start : string := "{" +:+ q "type" +:+ ":" +:+ q "camera_start" +:+ "}".
Definition text_bogus : string := "{" +:+ q "type" +:+ ":" +:+ q "bogus" +:+ "}".
Definition text_no_value : string := "{" +:+ q "type" +:+ ":" +:+ q "set_exposure" +:+ "}".
Definition text_null_value : string :=
  "{" +:+ q "type" +:+ ":" +:+ q "set_gain" +:+ "," +:+ q "value" +:+ ":null}".
Definition text_word_value : string :=
  "{" +:+ q "type" +:+ ":" +:+ q "set_gain" +:+ "," +:+ q "value" +:+ ":" +:+ q "high" +:+ "}".
Definition text_numeric_string : string :=
  "{" +:+ q "type" +:+ ":" +:+ q "set_focus" +:+ "," +:+ q "value" +:+ ":" +:+ q "12" +:+ "}".
Definition text_array : string := "[]".
Definition text_malformed : string := "{not json".

Definition known_texts : list (string * value F) :=
  [ (text_start, PyDict {[ "type" := PyStr "camera_start" ]});
    (text_bogus, PyDict {[ "type" := PyStr "bogus" ]});
    (text_no_value, PyDict {[ "type" := PyStr "set_exposure" ]});
    (text_null_value, PyDict {[ "type" := PyStr "set_gain"; "value" := PyNone ]});
    (text_word_value, PyDict {[ "type" := PyStr "set_gain"; "value" := PyStr "high" ]});
    (text_numeric_string, PyDict {[ "type" := PyStr "set_focus"; "value" := PyStr "12" ]});
    (text_array, PyList []) ].

Fixpoint loads (table : list (string * value F)) (text : string) : option (value F) :=
  match table with
  | [] => None
  | (t, v) :: rest => if String.eqb t text then Some v else loads rest text
  end.

#[export] Instance python : Python F := {
  double_of_int := of_Z;
  float_of_int := float_int;
  float_of_str := float_str;
  json_loads := loads known_texts;
  json_loads_other_error := fun _ => None;
}.

Definition fourcc_code (s : string) : exn + Z :=
  match list_ascii_of_string s with
  | [c1; c2; c3; c4] =>
      inr (Z.lor (Z.of_nat (nat_of_ascii c1))
             (Z.lor (Z.shiftl (Z.of_nat (nat_of_ascii c2)) 8)
                (Z.lor (Z.shiftl (Z.of_nat (nat_of_ascii c3)) 16)
                       (Z.shiftl (Z.of_nat (nat_of_ascii c4)) 24))))
  | _ => inl (TypeError "VideoWriter_fourcc() takes four characters")
  end.

Definition table_set (d : Dev) (prop : Z) (v : F) : bool * Dev :=
  if (prop =? CAP_PROP_ZOOM)%Z then (false, d) else (true, <[prop := v]> d).

Definition table_get (d : Dev) (prop : Z) : F := default (of_Z 0) (d !! prop).

Definition jpeg (ext : string) (fr : Frame) (params : list Z) : option (list Byte.byte) :=
  Some ([Byte.xff; Byte.xd8] ++ fr ++ [Byte.xff; Byte.xd9])%list.

#[export] Instance cv2 : Cv2 F Frame Dev := {
  dev_set := table_set;
  dev_get := table_get;
  VideoWriter_fourcc := fourcc_code;
  imencode := jpeg;
}.

Definition camera : @CameraManager F Frame Dev := __init__ main_config.

Definition frame1 : Frame := [Byte.x01; Byte.x02; Byte.x03].

(** [camera_start], the device opens, one frame is captured. *)
Definition capturing : list (@label F Frame Dev) :=
  [ CallStart; Bg (BgOpen 0 (Some ∅)); Bg (BgLock 0); Bg (BgLock 0);
    Bg (BgRead 0 (Some frame1)); Bg (BgLock 0) ].

End Demo.

Import Demo.

(** ** Vocabulary of the further properties *)

(** A reader of the stream, as a client would write it: the boundary line,
    the content type line, the content length, an empty line, that many
    bytes, a line end. *)
Fixpoint strip_bytes (p l : list Byte.byte) : option (list Byte.byte) :=
  match p, l with
  | [], _ => Some l
  | a :: p', b :: l' => if Byte.eqb a b then strip_bytes p' l' else None
  | _ :: _, [] => None
  end.

Definition is_digit_byte (b : Byte.byte) : bool :=
  (48 <=? nat_of_ascii (ascii_of_byte b))%nat &&
  (nat_of_ascii (ascii_of_byte b) <=? 57)%nat.

Fixpoint span_digits (l : list Byte.byte) : list Byte.byte * list Byte.byte :=
  match l with
  | b :: l' =>
      if is_digit_byte b
      then let '(ds, rest) := span_digits l' in (b :: ds, rest)
      else ([], l)
  | [] => ([], [])
  end.

Definition read_part (wire : list Byte.byte)
  : option (list Byte.byte * list Byte.byte) :=
  match strip_bytes (encode ("--frame" +:+ CRLF)) wire with
  | None => None
  | Some w1 =>
  match strip_bytes (encode ("Content-Type: image/jpeg" +:+ CRLF)) w1 with
  | None => None
  | Some w2 =>
  match strip_bytes (encode "Content-Length: ") w2 with
  | None => None
  | Some w3 =>
      let '(digits, w4) := span_digits w3 in
      match parse_len (string_of_list_byte digits) with
      | None => None
      | Some n =>
      match strip_bytes (encode (CRLF +:+ CRLF)) w4 with
      | None => None
      | Some w5 =>
          if (length w5 <? n)%nat then None
          else match strip_bytes (encode CRLF) (drop n w5) with
               | None => None
               | Some w6 => Some (take n w5, w6)
               end
      end
      end
  end
  end
  end.

Fixpoint read_parts (fuel : nat) (wire : list Byte.byte)
  : option (list (list Byte.byte)) :=
  match wire, fuel with
  | [], _ => Some []
  | _, O => None
  | _, S fuel' =>
      match read_part wire with
      | None => None
      | Some (payload, rest) =>
          match read_parts fuel' rest with
          | None => None
          | Some payloads => Some (payload :: payloads)
          end
      end
  end.

Section MoreVocabulary.
Context {F Frame Dev : Type} `{!Python F} `{!Cv2 F Frame Dev}.

(** The key under which [get_props] reports the property of a setter. *)
Definition props_key (k : setter_id) : string :=
  match k with
  | WhiteBalanceTemperature => "white_balance"
  | Exposure => "exposure"
  | Gain => "gain"
  | Focus => "focus"
  | Zoom => "zoom"
  end.

(** [v[key]] on a dictionary. *)
Definition item (v : value F) (key : string) : option (value F) :=
  match v with
  | PyDict d => d !! key
  | _ => None
  end.

(** The payloads the generator encodes, in order, up to its return. *)
Fixpoint encoded_frames (obs : list (bool * option Frame))
  : list (list Byte.byte) :=
  match obs with
  | [] => []
  | (running, frame) :: rest =>
      if negb running then []
      else match frame with
           | None => encoded_frames rest
           | Some fr =>
               match imencode ".jpg" fr [IMWRITE_JPEG_QUALITY; 100] with
               | None => encoded_frames rest
               | Some jpg_bytes => jpg_bytes :: encoded_frames rest
               end
           end
  end.

(** A text on which [json.loads] raises [JSONDecodeError], or that decodes
    to an object. *)
Definition undecodable_or_object (msg_text : string) : bool :=
  match json_loads msg_text with
  | None =>
      match json_loads_other_error msg_text with
      | None => true
      | Some _ => false
      end
  | Some msg => is_dict (F := F) msg
  end.

(** Thread [i] alone: one read, then three locked blocks. *)
Definition wind_down (i : nat) (r : option Frame) : list (@bg_label Frame Dev) :=
  [BgRead i r; BgLock i; BgLock i; BgLock i].

(** Thread [i] alone: [n] reads that fail, each followed by the test at
    the top of the loop. *)
Fixpoint failed_reads (i n : nat) : list (@bg_label Frame Dev) :=
  match n with
  | O => []
  | S n' => BgRead i None :: BgLock i :: failed_reads i n'
  end.

(** A stored handle has an owner: some capture thread is in flight. *)
Definition handle_has_owner (s : @CameraManager F Frame Dev) : Prop :=
  cap s = None ∨ ∃ i p, threads s !! i = Some p ∧ in_flight p = true.

End MoreVocabulary.

(** A first thread that has seen the flag cleared and has its cleanup
    still to do, when a second start has opened the device again. *)
Definition late_cleanup : list (@label F Frame Dev) :=
  (capturing ++
   [ StopFlag; Bg (BgLock 0); StopCleanup;
     CallStart; Bg (BgOpen 1 (Some ∅)); Bg (BgLock 1) ])%list.

(** * Properties *)

(** ** The device session *)

Section OpenCamera.
Context {F Frame Dev : Type} `{!Python F} `{!Cv2 F Frame Dev}.

Implicit Types (c fresh : @VideoCapture F Dev) (cfg : Config).

Lemma vc_set_isOpened c prop v : isOpened (vc_set c prop v).2 = isOpened c.
Proof.
  unfold vc_set, isOpened. destruct (vc_backend c) as [d|] eqn:Hd.
  - by destruct (dev_set d prop v).
  - cbn. by rewrite Hd.
Qed.

Lemma vc_set_writes c prop v :
  isOpened c = true → vc_writes (vc_set c prop v).2 = (vc_writes c ++ [(prop, v)])%list.
Proof.
  unfold vc_set, isOpened. destruct (vc_backend c) as [d|]; [|done].
  by destruct (dev_set d prop v).
Qed.

Lemma _open_camera_ok cfg fresh c :
  _open_camera cfg fresh = inr c →
  isOpened fresh = true ∧ isOpened c = true ∧
  vc_writes c = (vc_writes fresh ++ open_writes cfg)%list.
Proof.
  unfold _open_camera, open_writes.
  destruct (isOpened fresh) eqn:Hop; [|done]. cbn [negb].
  intros Hc. split; [done|].
  case_bool_decide as Hf.
  - injection Hc as <-.
    rewrite !vc_set_isOpened, !vc_set_writes by (by rewrite ?vc_set_isOpened).
    split; [done|]. by rewrite <- !app_assoc.
  - destruct (VideoWriter_fourcc (fourcc cfg)) as [e|code]; [done|].
    injection Hc as <-.
    rewrite !vc_set_isOpened, !vc_set_writes by (by rewrite ?vc_set_isOpened).
    split; [done|]. by rewrite <- !app_assoc.
Qed.

(** C9, as amended: a successful open writes the pixel format when the
    configured tag is not empty, and always the width, the height,
    auto-exposure 1, auto white balance 0 and autofocus 0, in that order
    and nothing else; the session it returns is open. *)
Theorem open_camera_applies_settings cfg (r : option Dev) c :
  _open_camera cfg (VideoCapture_new r) = inr c →
  isOpened c = true ∧
  vc_writes c =
    ((if bool_decide (fourcc cfg = "") then []
      else match VideoWriter_fourcc (fourcc cfg) with
           | inr code => [(CAP_PROP_FOURCC, double_of_int code)]
           | inl _ => []
           end) ++
     [ (CAP_PROP_FRAME_WIDTH, double_of_int (width cfg));
       (CAP_PROP_FRAME_HEIGHT, double_of_int (height cfg));
       (CAP_PROP_AUTO_EXPOSURE, double_of_int 1);
       (CAP_PROP_AUTO_WB, double_of_int 0);
       (CAP_PROP_AUTOFOCUS, double_of_int 0) ])%list.
Proof.
  intros Hc. apply _open_camera_ok in Hc as (_ & Hop & Hw).
  split; [done|]. by rewrite Hw.
Qed.

End OpenCamera.

(** C9, witness: the camera of [main.py] on the table driver. *)
Lemma open_camera_applies_settings_witness :
  ∃ c, _open_camera main_config (VideoCapture_new (Some (∅ : Demo.Dev))) = inr c ∧
       isOpened c = true ∧
       vc_writes c =
         [ (CAP_PROP_FOURCC, Demo.of_Z 1448695129);
           (CAP_PROP_FRAME_WIDTH, Demo.of_Z 1920);
           (CAP_PROP_FRAME_HEIGHT, Demo.of_Z 1080);
           (CAP_PROP_AUTO_EXPOSURE, Demo.of_Z 1);
           (CAP_PROP_AUTO_WB, Demo.of_Z 0);
           (CAP_PROP_AUTOFOCUS, Demo.of_Z 0) ].
Proof.
  eexists. split; [reflexivity|].
  exact (open_camera_applies_settings main_config (Some (∅ : Demo.Dev)) _ eq_refl).
Defined.

(** C9, as stated, fails: with an empty pixel format tag the open succeeds
    and no pixel format is written. *)
Lemma open_camera_skips_empty_fourcc :
  ∃ c, _open_camera (mkConfig 0 1920 1080 CAP_V4L2 "")
                    (VideoCapture_new (Some (∅ : Demo.Dev))) = inr c ∧
       Forall (λ w, w.1 ≠ CAP_PROP_FOURCC) (vc_writes c).
Proof.
  eexists. split; [reflexivity|].
  cbn. repeat constructor; done.
Qed.

(** ** The shared frame state *)

Section FrameState.
Context {F Frame Dev : Type} `{!Python F} `{!Cv2 F Frame Dev}.

Implicit Types (s : @CameraManager F Frame Dev) (l : @bg_label Frame Dev).

Ltac bg_cases l s :=
  unfold bg_step;
  let i := fresh "i" in let r := fresh "r" in let Hth := fresh "Hth" in
  destruct l as [i r|i e0|i|i r]; cbn [bg_thread];
  destruct (threads s !! i) as [[]|] eqn:Hth; try done;
  repeat match goal with
    | |- context [match _open_camera ?c ?f with _ => _ end] =>
        destruct (_open_camera c f) eqn:?
    | |- context [if negb (running s) then _ else _] =>
        destruct (running s) eqn:?; cbn [negb]
    | |- context [match cap s with _ => _ end] => destruct (cap s) eqn:?
    | |- context [match ?r with Some _ => _ | None => _ end] => is_var r; destruct r
    end.

Lemma run_app (a b : list (@label F Frame Dev)) s : run (a ++ b) s = run b (run a s).
Proof. apply fold_left_app. Qed.

Lemma run_bg_app (a b : list bg_label) s : run_bg (a ++ b) s = run_bg b (run_bg a s).
Proof. apply fold_left_app. Qed.

Lemma run_map_Bg (win : list bg_label) s : run (map Bg win) s = run_bg win s.
Proof. revert s. induction win as [|l win IH]; intros s; [done|]. apply IH. Qed.

Lemma stop_as_run (win : list bg_label) s :
  stop win s = run (StopFlag :: map Bg win ++ [StopCleanup]) s.
Proof.
  unfold stop. change (run (StopFlag :: ?t) s) with (run t (stop_flag s)).
  by rewrite run_app, run_map_Bg.
Qed.

(** The capture threads never change the configuration, and the only
    thing they do to [running] is to clear it. *)
Lemma bg_step_config l s : config (bg_step l s) = config s.
Proof. bg_cases l s; done. Qed.

Lemma bg_step_running l s : running (bg_step l s) = true → running s = true.
Proof. bg_cases l s; cbn; congruence. Qed.

Lemma run_bg_config (win : list bg_label) s : config (run_bg win s) = config s.
Proof.
  revert s. induction win as [|l win IH]; intros s; [done|].
  cbn. change (config (run_bg win (bg_step l s)) = config s).
  by rewrite IH, bg_step_config.
Qed.

Lemma run_bg_running (win : list bg_label) s :
  running s = false → running (run_bg win s) = false.
Proof.
  revert s. induction win as [|l win IH]; intros s Hs; [done|].
  apply (IH (bg_step l s)). destruct (running (bg_step l s)) eqn:Hr; [|done].
  apply bg_step_running in Hr. congruence.
Qed.

Lemma producer_insert (ts : list (@pc F Frame Dev)) i p0 p' :
  ts !! i = Some p0 →
  (in_flight p0 = true → in_flight p' = true) →
  (∃ j p, ts !! j = Some p ∧ in_flight p = true) →
  ∃ j p, <[i:=p']> ts !! j = Some p ∧ in_flight p = true.
Proof.
  intros Hi Himp (j & p & Hj & Hp). destruct (decide (i = j)) as [->|Hne].
  - exists j, p'. split.
    + apply list_lookup_insert_eq. by eapply lookup_lt_Some.
    + apply Himp. congruence.
  - exists j, p. by rewrite list_lookup_insert_ne.
Qed.

Lemma producer_insert_in_flight (ts : list (@pc F Frame Dev)) i p0 p' :
  ts !! i = Some p0 → in_flight p' = true →
  ∃ j p, <[i:=p']> ts !! j = Some p ∧ in_flight p = true.
Proof.
  intros Hi Hp. exists i, p'. split; [|done].
  apply list_lookup_insert_eq. by eapply lookup_lt_Some.
Qed.

Lemma bg_step_frame_has_producer l s :
  frame_has_producer s → frame_has_producer (bg_step l s).
Proof.
  unfold frame_has_producer. intros Hinv.
  bg_cases l s; cbn;
    try (by left);
    try (right; by eapply producer_insert_in_flight);
    (destruct Hinv as [Hnone|Hprod]; [by left|right];
     eapply producer_insert; [done| |done]; done).
Qed.

Lemma step_frame_has_producer (l : @label F Frame Dev) s :
  frame_has_producer s → frame_has_producer (step l s).
Proof.
  destruct l as [| | |prop v|b]; cbn [step].
  - unfold start, frame_has_producer. destruct (running s); [done|]. cbn.
    intros [Hnone|(j & p & Hj & Hp)]; [by left|right].
    exists j, p. split; [|done]. by apply lookup_app_l_Some.
  - done.
  - by left.
  - unfold write_prop, frame_has_producer. destruct (cap s) as [c|]; [|done].
    by destruct (vc_set c prop v).
  - apply bg_step_frame_has_producer.
Qed.

Lemma run_frame_has_producer (tr : list (@label F Frame Dev)) s :
  frame_has_producer s → frame_has_producer (run tr s).
Proof.
  revert s. induction tr as [|l tr IH]; intros s Hs; [done|].
  apply (IH (step l s)). by apply step_frame_has_producer.
Qed.

Lemma stop_fields (win : list bg_label) s :
  running (stop win s) = false ∧ last_frame (stop win s) = None ∧
  cap (stop win s) = None.
Proof.
  unfold stop, stop_cleanup, clear. cbn. split; [|done].
  by apply run_bg_running.
Qed.

End FrameState.

(** ** Start and stop *)

Section Lifecycle.
Context {F Frame Dev : Type} `{!Python F} `{!Cv2 F Frame Dev}.

Implicit Types (s : @CameraManager F Frame Dev) (l : @bg_label Frame Dev)
  (evs : list (@event Frame Dev)) (win : list (@bg_label Frame Dev)).

Lemma exec_snoc evs ev s : exec (evs ++ [ev]) s = exec_event ev (exec evs s).
Proof. unfold exec. by rewrite fold_left_app. Qed.

Lemma last_command_snoc evs ev :
  last_command (evs ++ [ev]) =
  match command_of ev with Some c => Some c | None => last_command evs end.
Proof.
  induction evs as [|ev0 evs IH]; cbn.
  - by destruct (command_of ev).
  - rewrite IH. by destruct (command_of ev), (last_command evs).
Qed.

Lemma bg_labels_snoc evs ev :
  bg_labels (evs ++ [ev]) = (bg_labels evs ++ bg_labels [ev])%list.
Proof. unfold bg_labels. by rewrite flat_map_app. Qed.

Lemma exec_event_config ev s : config (exec_event ev s) = config s.
Proof.
  destruct ev as [|win|l]; cbn.
  - unfold start. by destruct (running s).
  - unfold stop. cbn. by rewrite run_bg_config.
  - apply bg_step_config.
Qed.

Lemma exec_config evs s : config (exec evs s) = config s.
Proof.
  induction evs as [|ev evs IH] using rev_ind; [done|].
  by rewrite exec_snoc, exec_event_config.
Qed.

(** Right after a command, [running] is what the command asked for. *)
Lemma exec_event_running ev c s :
  command_of ev = Some c → running (exec_event ev s) = is_start c.
Proof.
  destruct ev as [|win|l]; intros [= <-]; cbn.
  - unfold start. by destruct (running s) eqn:Hr.
  - apply stop_fields.
Qed.

(** Only [start] sets the flag. *)
Lemma exec_running_true evs cfg :
  running (exec evs (__init__ cfg)) = true → last_command evs = Some camera_start.
Proof.
  induction evs as [|ev evs IH] using rev_ind; [done|].
  rewrite exec_snoc, last_command_snoc.
  destruct ev as [|win|l]; cbn [command_of exec_event]; [done| |].
  - intros Hr. by rewrite (proj1 (stop_fields win _)) in Hr.
  - intros Hr. apply IH. by eapply bg_step_running.
Qed.

(** As long as every open succeeds, no thread enters the failure handler,
    and the threads leave the flag alone. *)
Lemma bg_step_no_failed_open l s :
  open_succeeds (config s) l = true →
  no_failed_open s → no_failed_open (bg_step l s).
Proof.
  unfold no_failed_open. intros Hok Hinv j e'.
  unfold bg_step.
  destruct l as [i r|i e0|i|i r]; cbn [bg_thread open_succeeds] in *;
    destruct (threads s !! i) as [p0|] eqn:Hth; try apply Hinv;
    destruct p0; try apply Hinv;
    repeat match goal with
      | |- context [match _open_camera ?c ?f with _ => _ end] =>
          destruct (_open_camera c f) eqn:?
      | |- context [if negb (running s) then _ else _] =>
          destruct (running s) eqn:?; cbn [negb]
      | |- context [match cap s with _ => _ end] => destruct (cap s) eqn:?
      | |- context [match ?r with Some _ => _ | None => _ end] => is_var r; destruct r
      end;
    try done; cbn;
    (destruct (decide (i = j)) as [->|Hne];
     [ rewrite list_lookup_insert_eq by (by eapply lookup_lt_Some); done
     | rewrite list_lookup_insert_ne by done; apply Hinv ]).
Qed.

Lemma bg_step_running_eq l s :
  no_failed_open s → running (bg_step l s) = running s.
Proof.
  intros Hinv. unfold bg_step.
  destruct l as [i r|i e0|i|i r]; cbn [bg_thread];
    destruct (threads s !! i) as [p0|] eqn:Hth; try done;
    destruct p0; try done.
  - by destruct (_open_camera _ _).
  - by destruct (Hinv i e).
  - destruct (running s) eqn:Hr; cbn; [|done]. by destruct (cap s).
  - by destruct r.
Qed.

Lemma run_bg_no_failed_open win s :
  forallb (open_succeeds (config s)) win = true →
  no_failed_open s →
  no_failed_open (run_bg win s) ∧ running (run_bg win s) = running s.
Proof.
  revert s. induction win as [|l win IH]; intros s Hok Hinv; [done|].
  cbn in Hok. apply andb_true_iff in Hok as [Hl Hwin].
  destruct (IH (bg_step l s)) as [IH1 IH2].
  - by rewrite bg_step_config.
  - by apply bg_step_no_failed_open.
  - split; [done|]. change (run_bg (l :: win) s) with (run_bg win (bg_step l s)).
    by rewrite IH2, bg_step_running_eq.
Qed.

Lemma exec_no_failed_open evs cfg :
  forallb (open_succeeds cfg) (bg_labels evs) = true →
  no_failed_open (exec evs (__init__ cfg)) ∧
  running (exec evs (__init__ cfg)) =
    match last_command evs with Some c => is_start c | None => false end.
Proof.
  induction evs as [|ev evs IH] using rev_ind; intros Hok.
  - split; [|done]. intros i e. done.
  - rewrite bg_labels_snoc, forallb_app in Hok.
    apply andb_true_iff in Hok as [Hevs Hev].
    destruct (IH Hevs) as [Hinv Hrun].
    rewrite exec_snoc, last_command_snoc.
    set (s := exec evs (__init__ cfg)) in *.
    assert (Hcfg : config s = cfg) by apply exec_config.
    destruct ev as [|win|l]; cbn [command_of exec_event].
    + split; [|by apply (exec_event_running CameraStart)].
      unfold start. destruct (running s); [done|]. cbn.
      intros i e Hi. apply lookup_app_Some in Hi as [Hi|[_ Hi]].
      * by apply (Hinv i e).
      * by destruct (i - _)%nat as [|[|]].
    + split; [|by apply (exec_event_running (CameraStop win))].
      cbn in Hev. rewrite app_nil_r in Hev.
      unfold stop, stop_cleanup, clear, no_failed_open. cbn.
      apply (run_bg_no_failed_open win (stop_flag s)); [by rewrite <- Hcfg in Hev|].
      apply Hinv.
    + cbn in Hev. apply andb_true_iff in Hev as [Hl _].
      split.
      * apply bg_step_no_failed_open; [by rewrite Hcfg|done].
      * by rewrite bg_step_running_eq.
Qed.

(** C1, as amended: in every reachable state a frame in the slot has a
    producer, a capture thread that has entered its loop and has not yet
    finished its cleanup, so that the slot is empty once the threads are
    done; [stop] clears the flag in one locked step and the frame in a
    later one, with the threads running in between; when [stop] returns,
    after [camera_stop] or at the end of the connection, [running] is false
    and [last_frame] is null whatever the state was. *)
Theorem frame_slot_invariant (cfg : Config) (tr : list (@label F Frame Dev)) :
  (let s := run tr (__init__ cfg) in
   last_frame s = None ∨
   ∃ i p, threads s !! i = Some p ∧ in_flight p = true) ∧
  (∀ s win,
     stop win s = run (StopFlag :: map Bg win ++ [StopCleanup]) s ∧
     running (stop win s) = false ∧ last_frame (stop win s) = None) ∧
  (∀ s win msg_text d,
     json_loads msg_text = Some (PyDict d) →
     d !! "type" = Some (PyStr "camera_stop") →
     let '(sent, s') := on_text win msg_text s in
     sent = Sent (ack "camera_stop") ∧
     running s' = false ∧ last_frame s' = None) ∧
  (∀ s inbox final_win,
     let s' := (ws_control inbox final_win s).2 in
     running s' = false ∧ last_frame s' = None).
Proof.
  split; [|split; [|split]].
  - apply (run_frame_has_producer tr (__init__ cfg)). by left.
  - intros s win. split; [apply stop_as_run|].
    destruct (stop_fields win s) as (? & ? & ?). done.
  - intros s win msg_text d Hloads Htype.
    unfold on_text. rewrite Hloads. cbn [py_get]. rewrite Htype.
    cbn [from_option id]. unfold dispatch. cbn.
    split; [done|]. split; [|done]. by apply run_bg_running.
  - intros s inbox final_win. unfold ws_control.
    destruct (receive_loop _ _) as [[rs e] s1]. cbn.
    split; [|done]. by apply run_bg_running.
Qed.

(** C5, as amended: when a run of commands and thread steps contains no
    failing open, [running] ends as the last command asked; whatever the
    device does, [running] is what a command asked at the moment the
    command returns, and it can only be true if the last command was
    [camera_start]; [start] on a running camera changes nothing, no second
    thread included; [stop] on a stopped camera leaves the flag, the handle
    and the frame slot as they were. *)
Theorem running_follows_last_command (cfg : Config) evs (c : lifecycle) :
  last_command evs = Some c →
  forallb (open_succeeds cfg) (bg_labels evs) = true →
  running (exec evs (__init__ cfg)) = is_start c ∧
  (∀ s evs0 ev,
     command_of ev = Some c → running (exec (evs0 ++ [ev]) s) = is_start c) ∧
  (∀ evs0,
     running (exec evs0 (__init__ cfg)) = true →
     last_command evs0 = Some camera_start) ∧
  (∀ s, running s = true → start s = s) ∧
  (∀ s win,
     running s = false → cap s = None → last_frame s = None →
     running (stop win s) = false ∧ cap (stop win s) = None ∧
     last_frame (stop win s) = None ∧ stop [] s = s).
Proof.
  intros Hlast Hok. split; [|split; [|split; [|split]]].
  - destruct (exec_no_failed_open evs cfg Hok) as [_ Hrun].
    by rewrite Hrun, Hlast.
  - intros s evs0 ev Hev. rewrite exec_snoc. by apply exec_event_running.
  - intros evs0. apply exec_running_true.
  - intros s Hr. unfold start. by rewrite Hr.
  - intros s win Hr Hc Hf.
    destruct (stop_fields win s) as (? & ? & ?).
    repeat (split; [done|]).
    destruct s. cbn in *. by subst.
Qed.

(** What [_capture_loop] does when the open fails. *)
Lemma failed_open_steps s i (r : option Dev) e :
  threads s !! i = Some PcOpen →
  _open_camera (config s) (VideoCapture_new r) = inl e →
  run_bg [BgOpen i r; BgLock i] s =
  print ("[CAM] open failed: " +:+ str_exn e)
        (set_pc i PcDone (clear (set_running false (set_pc i (PcOpenFailed e) s)))).
Proof.
  intros Hi Hopen. unfold run_bg. cbn [fold_left].
  assert (H1 : bg_step (BgOpen i r) s = set_pc i (PcOpenFailed e) s).
  { unfold bg_step. cbn [bg_thread]. by rewrite Hi, Hopen. }
  rewrite H1. unfold bg_step. cbn [bg_thread set_pc threads].
  rewrite list_lookup_insert_eq by (by eapply lookup_lt_Some). done.
Qed.


Lemma start_spawns s :
  running s = false →
  threads (start s) !! length (threads s) = Some PcOpen ∧
  threads (start s) = (threads s ++ [PcOpen])%list ∧
  config (start s) = config s ∧ running (start s) = true.
Proof.
  intros Hr. unfold start. rewrite Hr. cbn. split; [|done].
  rewrite lookup_app_r by done. by rewrite Nat.sub_diag.
Qed.

(** C8: a [camera_start] message is answered with the acknowledgement in
    every state and whatever the device does later; when the open of the
    thread it started fails, the thread goes from the handler straight to
    its end, leaving [running] false and the handle and the frame slot
    null, and the failure is a line on the standard output, nothing that
    reaches the caller. *)
Theorem camera_start_acknowledged_open_failure_logged
    s win msg_text d (r : option Dev) e :
  json_loads msg_text = Some (PyDict d) →
  d !! "type" = Some (PyStr "camera_start") →
  running s = false →
  _open_camera (config s) (VideoCapture_new r) = inl e →
  (∀ s0 win0, (on_text win0 msg_text s0).1 = Sent (ack "camera_start")) ∧
  let i := length (threads s) in
  let s1 := (on_text win msg_text s).2 in
  let s2 := run_bg [BgOpen i r; BgLock i] s1 in
  threads s1 !! i = Some PcOpen ∧ running s1 = true ∧
  threads s2 !! i = Some PcDone ∧
  running s2 = false ∧ cap s2 = None ∧ last_frame s2 = None ∧
  stdout s2 = (stdout s1 ++ ["[CAM] open failed: " +:+ str_exn e])%list.
Proof.
  intros Hloads Htype Hr Hopen.
  assert (Hon : ∀ s0 win0, on_text win0 msg_text s0 =
            (Sent (ack "camera_start"), start (print ("[WS] received:" +:+ msg_text) s0))).
  { intros s0 win0. unfold on_text. rewrite Hloads. cbn [py_get].
    rewrite Htype. cbn [from_option id]. unfold dispatch. by cbn. }
  split; [intros s0 win0; by rewrite Hon|].
  intros i s1 s2. subst s1 s2. rewrite Hon. cbn [snd].
  set (s0 := print _ s).
  destruct (start_spawns s0) as (Hi & Hts & Hcfg & Hrun); [done|].
  change (length (threads s0)) with i in Hi.
  rewrite (failed_open_steps _ i r e Hi) by (by rewrite Hcfg).
  repeat (split; [done|]). cbn. split; [|done].
  rewrite list_insert_insert_eq.
  apply list_lookup_insert_eq. by eapply lookup_lt_Some.
Qed.

End Lifecycle.

(** C1, as stated, fails: after a frame has been captured, the first
    locked step of [stop] leaves [running] false and the frame in the
    slot. *)
Lemma frame_outlives_running :
  let s := run (capturing ++ [StopFlag]) camera in
  running s = false ∧ last_frame s = Some frame1.
Proof. vm_compute. done. Qed.

(** C5, as stated, fails: after [camera_start] on a device that cannot be
    opened, the capture thread clears [running], and the last command is
    still [camera_start]. *)
Lemma running_cleared_by_failed_open :
  let evs := [CameraStart; Background (BgOpen 0 None); Background (BgLock 0)] in
  last_command evs = Some camera_start ∧ running (exec evs camera) = false.
Proof. vm_compute. done. Qed.

(** C5, witness: start, a successful open, stop, start again. *)
Lemma running_follows_last_command_witness :
  let evs := [CameraStart; Background (BgOpen 0 (Some (∅ : Demo.Dev)));
              CameraStop [BgLock 0]; CameraStart] in
  running (exec evs camera) = true.
Proof.
  exact (proj1 (running_follows_last_command main_config
                  [CameraStart; Background (BgOpen 0 (Some (∅ : Demo.Dev)));
                   CameraStop [BgLock 0]; CameraStart]
                  camera_start eq_refl eq_refl)).
Defined.

(** C8, witness: [camera_start] on a device that cannot be opened. *)
Lemma camera_start_acknowledged_open_failure_logged_witness :
  (on_text [] text_start camera).1 = Sent (ack "camera_start") ∧
  let s2 := run_bg [BgOpen 0 None; BgLock 0] (on_text [] text_start camera).2 in
  running s2 = false ∧ last_frame s2 = None ∧
  stdout s2 = [ "[WS] received:" +:+ text_start;
                "[CAM] open failed: Cannot open camera index=0" ].
Proof.
  pose proof (camera_start_acknowledged_open_failure_logged
                camera [] text_start {[ "type" := PyStr "camera_start" ]} None
                (RuntimeError "Cannot open camera index=0")
                eq_refl eq_refl eq_refl eq_refl) as [Hack Hrest].
  split; [apply Hack|].
  destruct Hrest as (_ & _ & _ & Hr & _ & Hf & Hout).
  repeat (split; [assumption|]). exact Hout.
Defined.

(** ** Property access *)

Section PropertyAccess.
Context {F Frame Dev : Type} `{!Python F} `{!Cv2 F Frame Dev}.

Implicit Types (s : @CameraManager F Frame Dev) (win : list (@bg_label Frame Dev))
  (k : setter_id) (v : F).

Lemma setter_fun_unfold k : setter_fun k = set_property (setter_prop k).
Proof. by destruct k. Qed.

Lemma _ensure_open_is_open s :
  _ensure_open s = if is_open s then None else Some not_open.
Proof.
  unfold _ensure_open, is_open. destruct (cap s) as [c|]; [|done].
  by destruct (isOpened c).
Qed.


(** C2: a setter called on an open session, the session still being there
    when the setter takes the lock to write, returns the dictionary whose
    [ok] is the driver's answer to the write, whose [requested] is the
    input and whose [applied] is what the driver reads back for the same
    property after the write; a refused write is [ok = False] in that
    dictionary, not an exception. *)
Theorem setter_reports_request_and_readback k win v s (c : @VideoCapture F Dev) :
  is_open s = true →
  cap (run_bg win s) = Some c →
  let prop := setter_prop k in
  let ok := (vc_set c prop v).1 in
  let c' := (vc_set c prop v).2 in
  setter_fun k win v s =
    (inr (PyDict {[ "ok" := PyBool ok;
                    "requested" := PyFloat v;
                    "applied" := PyFloat (vc_get c' prop) ]}),
     set_cap (Some c') (run_bg win s)).
Proof.
  intros Hopen Hcap prop ok c'. subst prop ok c'.
  rewrite setter_fun_unfold. unfold set_property.
  rewrite _ensure_open_is_open, Hopen. unfold write_prop. rewrite Hcap.
  by destruct (vc_set c (setter_prop k) v).
Qed.


End PropertyAccess.

(** C2, witness: the table driver refuses to move the zoom; the answer is
    [ok = False] with the value read back, not the one requested. *)
Lemma setter_reports_request_and_readback_witness :
  let s := run capturing camera in
  is_open s = true ∧
  ∃ s', set_zoom [] (of_Z 2) s =
        (inr (PyDict {[ "ok" := PyBool false;
                        "requested" := PyFloat (of_Z 2);
                        "applied" := PyFloat (of_Z 0) ]}), s').
Proof.
  split; [reflexivity|]. eexists.
  exact (setter_reports_request_and_readback Zoom [] (of_Z 2)
           (run capturing camera) _ eq_refl eq_refl).
Defined.


(** ** The control channel *)

Section ControlChannel.
Context {F Frame Dev : Type} `{!Python F} `{!Cv2 F Frame Dev}.

Implicit Types (s : @CameraManager F Frame Dev) (win : list (@bg_label Frame Dev))
  (k : setter_id) (msg : value F) (d : gmap string (value F)).

Lemma dispatch_setter k win msg s :
  dispatch win msg (PyStr (setter_name k)) s =
  set_branch (setter_name k) (setter_fun k) win msg s.
Proof. by destruct k. Qed.

Lemma ack_or_error_set_branch name camera_set win msg s r :
  (set_branch name camera_set win msg s).1 = inr r → ack_or_error r = true.
Proof.
  unfold set_branch. destruct (py_get msg "value") as [e|val]; [done|].
  destruct (is_None val); [by intros [= <-]|].
  destruct (py_float val) as [e|x]; [done|].
  destruct (camera_set win x s) as [[e|result] s']; [done|]. by intros [= <-].
Qed.

Lemma ack_or_error_dispatch win msg msg_type s r :
  (dispatch win msg msg_type s).1 = inr r → ack_or_error r = true.
Proof.
  unfold dispatch.
  repeat (match goal with
          | |- context [if eq_str msg_type ?lit then _ else _] =>
              destruct (eq_str msg_type lit)
          end;
          [first [ by intros [= <-] | apply ack_or_error_set_branch ]|]).
  by intros [= <-].
Qed.

(** Where the claim about the dispatcher holds: a text on which
    [json.loads] raises [JSONDecodeError], or that decodes to an object,
    gets one response, of type ["ack"] or ["error"], and the loop goes
    on. *)
Lemma object_message_one_response win msg_text s :
  match json_loads msg_text with
  | Some msg => is_dict msg = true
  | None => json_loads_other_error msg_text = None
  end →
  ∃ r, (on_text win msg_text s).1 = Sent r ∧ ack_or_error r = true.
Proof.
  unfold on_text. destruct (json_loads msg_text) as [msg|].
  - destruct msg; try done. intros _. cbn [py_get].
    destruct (dispatch _ _ _ _) as [[e|r] s'] eqn:Hd.
    + by eexists.
    + eexists. split; [done|].
      eapply ack_or_error_dispatch. by rewrite Hd.
  - intros ->. by eexists.
Qed.

(** An exception of [json.loads] that is not [JSONDecodeError] is not
    caught by the [except] clause: nothing is sent and it leaves the
    loop. *)
Lemma other_decode_error_escapes win msg_text e s :
  json_loads msg_text = None →
  json_loads_other_error msg_text = Some e →
  on_text win msg_text s = (Escaped e, print ("[WS] received:" +:+ msg_text) s).
Proof. intros Hloads Hother. unfold on_text. by rewrite Hloads, Hother. Qed.


(** C4, at a failing input: a text that decodes to something other than an
    object ([[]], [123], [null], a string) makes [msg.get] raise outside the
    inner [try]; nothing is sent for it, the loop is left, the rest of
    the inbox is not handled and the connection handler ends with that
    exception. *)
Theorem non_object_message_ends_connection
    win msg_text msg (rest : list (string * list bg_label)) final_win s :
  json_loads msg_text = Some msg →
  is_dict msg = false →
  let e := AttributeError
             ("'" +:+ type_name msg +:+ "' object has no attribute 'get'") in
  (on_text win msg_text s).1 = Escaped e ∧
  (ws_control ((msg_text, win) :: rest) final_win s).1 = ([], Some e).
Proof.
  intros Hloads Hdict e.
  assert (Hon : ∀ s0, (on_text win msg_text s0).1 = Escaped e).
  { intros s0. unfold on_text. rewrite Hloads. by destruct msg. }
  split; [apply Hon|].
  unfold ws_control. cbn [receive_loop].
  specialize (Hon (print "[WS] client connected" s)).
  destruct (on_text _ _ _) as [o s1]. cbn in Hon. by subst o.
Qed.

(** C10, as amended: a [set_*] message whose [value] is null is answered
    [missing_value]; any other value that [float] rejects is answered
    [exception] with the camera untouched; a value that [float] accepts is
    converted and passed to the setter, whose dictionary comes back in the
    acknowledgement and whose exception comes back as [exception]. *)
Theorem set_message_value_handling k win msg_text d (val : value F) s :
  json_loads msg_text = Some (PyDict d) →
  d !! "type" = Some (PyStr (setter_name k)) →
  d !! "value" = Some val →
  let s0 := print ("[WS] received:" +:+ msg_text) s in
  on_text win msg_text s =
    match val with
    | PyNone => (Sent (error_missing_value (setter_name k)), s0)
    | _ =>
        match py_float val with
        | inl e => (Sent (error_exception (PyStr (setter_name k)) e), s0)
        | inr x =>
            match setter_fun k win x s0 with
            | (inr result, s') => (Sent (ack_result (setter_name k) result), s')
            | (inl e, s') => (Sent (error_exception (PyStr (setter_name k)) e), s')
            end
        end
    end.
Proof.
  intros Hloads Htype Hval s0. unfold on_text. rewrite Hloads.
  cbn [py_get]. rewrite Htype. cbn [from_option id]. fold s0.
  rewrite dispatch_setter. unfold set_branch. cbn [py_get].
  rewrite Hval. cbn [from_option id].
  destruct val; cbn [is_None]; try done;
    (destruct (py_float _) as [e|x]; [done|];
     by destruct (setter_fun k win x s0) as [[e|result] s']).
Qed.

End ControlChannel.

(** C4, witness: the text [[]]. *)
Lemma non_object_message_ends_connection_witness :
  (on_text [] text_array camera).1 =
    Escaped (AttributeError "'list' object has no attribute 'get'") ∧
  (ws_control [(text_array, []); (text_start, [])] [] camera).1 =
    ([], Some (AttributeError "'list' object has no attribute 'get'")).
Proof.
  exact (non_object_message_ends_connection [] text_array (PyList [])
           [(text_start, [])] [] camera eq_refl eq_refl).
Defined.

(** C10, as stated, fails: the message carries a [value] field, null, which
    [float] does not accept, and the answer is [missing_value]. *)
Lemma null_value_reported_missing :
  ∃ d e, json_loads text_null_value = Some (PyDict d) ∧
         d !! "value" = Some PyNone ∧
         py_float (PyNone : value F) = inl e ∧
         (on_text [] text_null_value (run capturing camera)).1 =
           Sent (error_missing_value "set_gain").
Proof. eexists _, _. split; [reflexivity|]. vm_compute. done. Qed.

(** C10, witness: a word is answered [exception] and nothing is written;
    a numeric string is converted and written. *)
Lemma set_message_value_handling_witness :
  let s := run capturing camera in
  on_text [] text_word_value s =
    (Sent (error_exception (PyStr "set_gain")
             (ValueError "could not convert string to float: 'high'")),
     print ("[WS] received:" +:+ text_word_value) s) ∧
  ∃ c s', (on_text [] text_numeric_string s).2 = s' ∧ cap s' = Some c ∧
          last (vc_writes c) = Some (CAP_PROP_FOCUS, of_Z 12).
Proof.
  split.
  - exact (set_message_value_handling Gain [] text_word_value
             {[ "type" := PyStr "set_gain"; "value" := PyStr "high" ]}
             (PyStr "high") (run capturing camera) eq_refl eq_refl eq_refl).
  - pose proof (set_message_value_handling Focus [] text_numeric_string
             {[ "type" := PyStr "set_focus"; "value" := PyStr "12" ]}
             (PyStr "12") (run capturing camera) eq_refl eq_refl eq_refl) as H.
    eexists _, _. rewrite H. vm_compute. done.
Defined.

(** ** The stream *)

Section Stream.
Context {F Frame Dev : Type} `{!Python F} `{!Cv2 F Frame Dev}.

Implicit Types (obs : list (bool * option Frame)) (jpg : list Byte.byte).

Lemma take_digits_uint (d : Decimal.uint) (rest : string) :
  take_digits (NilEmpty.string_of_uint d +:+ CRLF +:+ rest) =
  NilEmpty.string_of_uint d.
Proof.
  induction d; [reflexivity|..];
    (etransitivity; [|exact (f_equal (String _) IHd)]; reflexivity).
Qed.

Lemma parse_len_str_len (n : nat) : parse_len (str_len n) = Some n.
Proof.
  unfold parse_len, str_len. by rewrite NilEmpty.usu, DecimalNat.Unsigned.of_to.
Qed.

(** A reader of the header line gets the number that was written. *)
Lemma content_length_header (n : nat) :
  content_length (encode ("Content-Length: " +:+ str_len n +:+ CRLF +:+ CRLF)) = Some n.
Proof.
  unfold content_length, encode. rewrite string_of_list_byte_of_string.
  change (strip_prefix _ _) with (Some (str_len n +:+ CRLF +:+ CRLF)).
  cbv beta iota. unfold str_len at 1. rewrite take_digits_uint.
  apply parse_len_str_len.
Qed.

Lemma mjpeg_generator_parts obs :
  ∃ jpgs : list (list Byte.byte),
    (mjpeg_generator obs).1 = concat (map part jpgs) ∧
    Forall (λ jpg, ∃ fr, (true, Some fr) ∈ obs ∧
                         imencode ".jpg" fr [IMWRITE_JPEG_QUALITY; 100] = Some jpg)
           jpgs.
Proof.
  induction obs as [|[running frame] obs (jpgs & Hout & Hall)].
  - by exists [].
  - assert (Hweak : Forall (λ jpg, ∃ fr, (true, Some fr) ∈ (running, frame) :: obs ∧
                imencode ".jpg" fr [IMWRITE_JPEG_QUALITY; 100] = Some jpg) jpgs).
    { eapply Forall_impl; [done|]. intros jpg (fr & Hin & Henc).
      exists fr. split; [by right|done]. }
    cbn [mjpeg_generator]. unfold mjpeg_iteration.
    destruct running; cbn [negb]; [|by exists []].
    destruct frame as [fr|]; [|by exists jpgs].
    destruct (imencode ".jpg" fr [IMWRITE_JPEG_QUALITY; 100]) as [jpg|] eqn:Henc;
      [|by exists jpgs].
    exists (jpg :: jpgs). destruct (mjpeg_generator obs) as [out returned].
    cbn in *. split; [by rewrite Hout|].
    constructor; [|done]. exists fr. split; [by left|done].
Qed.

Lemma mjpeg_generator_encoded obs :
  (mjpeg_generator obs).1 = concat (map part (encoded_frames obs)).
Proof.
  induction obs as [|[running frame] obs IH]; [done|].
  cbn [mjpeg_generator encoded_frames]. unfold mjpeg_iteration.
  destruct running; cbn [negb]; [|done].
  destruct frame as [fr|]; [|done].
  destruct (imencode ".jpg" fr [IMWRITE_JPEG_QUALITY; 100]) as [jpg|]; [|done].
  destruct (mjpeg_generator obs) as [out returned]. cbn in *. by rewrite IH.
Qed.

Lemma encoded_frames_observed obs :
  Forall (λ jpg, ∃ fr, (true, Some fr) ∈ obs ∧
                       imencode ".jpg" fr [IMWRITE_JPEG_QUALITY; 100] = Some jpg)
         (encoded_frames obs).
Proof.
  induction obs as [|[running frame] obs IH]; [constructor|].
  assert (Hweak : Forall (λ jpg, ∃ fr, (true, Some fr) ∈ (running, frame) :: obs ∧
              imencode ".jpg" fr [IMWRITE_JPEG_QUALITY; 100] = Some jpg)
            (encoded_frames obs)).
  { eapply Forall_impl; [done|]. intros jpg (fr & Hin & Henc).
    exists fr. split; [by right|done]. }
  cbn [encoded_frames]. destruct running; cbn [negb]; [|constructor].
  destruct frame as [fr|]; [|done].
  destruct (imencode ".jpg" fr [IMWRITE_JPEG_QUALITY; 100]) as [jpg|] eqn:Henc;
    [|done].
  constructor; [|done]. exists fr. split; [by left|done].
Qed.

Lemma mjpeg_generator_frame (pre post : list (bool * option Frame)) (fr : Frame) jpg :
  Forall (λ o, o.1 = true) pre →
  imencode ".jpg" fr [IMWRITE_JPEG_QUALITY; 100] = Some jpg →
  mjpeg_generator (pre ++ (true, Some fr) :: post) =
    (((mjpeg_generator pre).1 ++ part jpg ++ (mjpeg_generator post).1)%list,
     (mjpeg_generator post).2).
Proof.
  intros Hpre Henc. induction Hpre as [|[running fr0] pre Hhd _ IH].
  - cbn [app mjpeg_generator]. unfold mjpeg_iteration. cbn [negb].
    rewrite Henc. by destruct (mjpeg_generator post).
  - cbn in Hhd. subst running. cbn [app mjpeg_generator].
    destruct (mjpeg_iteration true fr0) eqn:Hit.
    + unfold mjpeg_iteration in Hit. cbn in Hit. destruct fr0 as [fr0|]; [|done].
      by destruct (imencode ".jpg" fr0 _).
    + done.
    + rewrite IH. destruct (mjpeg_generator pre) as [out returned]. cbn.
      by rewrite app_assoc.
Qed.

(** C6: a frame observed while running that [imencode] encodes, for
    [".jpg"] at quality 100, is yielded as one part: the boundary line for
    [frame], the JPEG content type line, the content length line followed
    by an empty line, the payload and a line end, in that order, the
    content length line reading back as the number of bytes of the
    payload; in the stream the part stands between what was yielded before
    and what is yielded after. What the generator yields on any
    observations is exactly the parts of the frames it encoded, in order,
    each of them a frame observed while running. *)
Theorem stream_parts_well_formed
    (pre post : list (bool * option Frame)) (fr : Frame) jpg :
  Forall (λ o, o.1 = true) pre →
  imencode ".jpg" fr [IMWRITE_JPEG_QUALITY; 100] = Some jpg →
  (∃ header,
     mjpeg_iteration true (Some fr) =
       Yield [ encode ("--frame" +:+ CRLF);
               encode ("Content-Type: image/jpeg" +:+ CRLF);
               header; jpg; encode CRLF ] ∧
     header = encode ("Content-Length: " +:+ str_len (length jpg)
                      +:+ CRLF +:+ CRLF) ∧
     content_length header = Some (length jpg)) ∧
  mjpeg_generator (pre ++ (true, Some fr) :: post) =
    (((mjpeg_generator pre).1 ++
      [ encode ("--frame" +:+ CRLF);
        encode ("Content-Type: image/jpeg" +:+ CRLF);
        encode ("Content-Length: " +:+ str_len (length jpg) +:+ CRLF +:+ CRLF);
        jpg; encode CRLF ] ++
      (mjpeg_generator post).1)%list,
     (mjpeg_generator post).2) ∧
  (∀ obs,
     (mjpeg_generator obs).1 = concat (map part (encoded_frames obs)) ∧
     Forall (λ jpg',
               (∃ fr', (true, Some fr') ∈ obs ∧
                       imencode ".jpg" fr' [IMWRITE_JPEG_QUALITY; 100] = Some jpg') ∧
               ∃ header,
                 part jpg' = [ encode ("--frame" +:+ CRLF);
                               encode ("Content-Type: image/jpeg" +:+ CRLF);
                               header; jpg'; encode CRLF ] ∧
                 content_length header = Some (length jpg'))
            (encoded_frames obs)).
Proof.
  intros Hpre Henc. split; [|split].
  - eexists. split; [|split; [reflexivity|apply content_length_header]].
    unfold mjpeg_iteration. cbn [negb]. by rewrite Henc.
  - by apply mjpeg_generator_frame.
  - intros obs. split; [apply mjpeg_generator_encoded|].
    eapply Forall_impl; [apply encoded_frames_observed|].
    intros jpg' Hfr. split; [done|].
    eexists. split; [reflexivity|apply content_length_header].
Qed.

(** C7: a request on a camera that is not running gets the 503 error and
    no streaming response; a running camera gets the stream; the generator
    returns at the first observation of [running == False], with what it
    had yielded before and nothing for that observation or any later one;
    and it yields nothing at all unless it observed [running == True] with
    a frame. *)
Theorem stream_bound_to_running
    (s : @CameraManager F Frame Dev) (pre post : list (bool * option Frame))
    (frame : option Frame) :
  running s = false →
  Forall (λ o, o.1 = true) pre →
  mjpeg s = inl (503, "Camera is not started. Use WS camera_start first.") ∧
  (∀ s' : @CameraManager F Frame Dev,
     running s' = true → mjpeg s' = inr media_type) ∧
  (mjpeg_generator pre).2 = false ∧
  mjpeg_generator (pre ++ (false, frame) :: post) = ((mjpeg_generator pre).1, true) ∧
  mjpeg_generator (observe s :: post) = ([], true) ∧
  (∀ obs, (mjpeg_generator obs).1 ≠ [] → ∃ fr, (true, Some fr) ∈ obs).
Proof.
  intros Hr Hpre. unfold mjpeg. rewrite Hr. split; [done|].
  split; [by intros s' ->|].
  assert (Hgen : (mjpeg_generator pre).2 = false ∧
                 mjpeg_generator (pre ++ (false, frame) :: post) =
                 ((mjpeg_generator pre).1, true)).
  { induction Hpre as [|[running fr] pre Hhd _ [IH1 IH2]]; [done|].
    cbn in Hhd. subst running. cbn [app mjpeg_generator].
    destruct (mjpeg_iteration true fr) eqn:Hit; [|done|].
    - unfold mjpeg_iteration in Hit. cbn in Hit. destruct fr as [fr|]; [|done].
      by destruct (imencode _ _ _).
    - rewrite IH2. by destruct (mjpeg_generator pre). }
  destruct Hgen as [H1 H2]. repeat (split; [done|]).
  split; [unfold observe; cbn; by rewrite Hr|].
  intros obs Hne. destruct (mjpeg_generator_parts obs) as ([|jpg jpgs] & Hout & Hall).
  - by rewrite Hout in Hne.
  - apply Forall_cons in Hall as [(fr & Hin & _) _]. by exists fr.
Qed.

End Stream.

(** C6, witness: a stream that sees no frame, then one frame, then the
    flag cleared. *)
Lemma stream_parts_well_formed_witness :
  mjpeg_generator ([(true, None)] ++ (true, Some frame1) :: [(false, None)]) =
  (((mjpeg_generator (Frame := Frame) [(true, None)]).1 ++
    [ encode ("--frame" +:+ CRLF);
      encode ("Content-Type: image/jpeg" +:+ CRLF);
      encode ("Content-Length: " +:+
              str_len (length [Byte.xff; Byte.xd8; Byte.x01; Byte.x02; Byte.x03;
                               Byte.xff; Byte.xd9])
              +:+ CRLF +:+ CRLF);
      [Byte.xff; Byte.xd8; Byte.x01; Byte.x02; Byte.x03; Byte.xff; Byte.xd9];
      encode CRLF ] ++
    (mjpeg_generator (Frame := Frame) [(false, None)]).1)%list,
   (mjpeg_generator (Frame := Frame) [(false, None)]).2).
Proof.
  assert (Henc : imencode ".jpg" frame1 [IMWRITE_JPEG_QUALITY; 100] =
                 Some [Byte.xff; Byte.xd8; Byte.x01; Byte.x02; Byte.x03;
                       Byte.xff; Byte.xd9]) by (vm_compute; reflexivity).
  exact (proj1 (proj2 (stream_parts_well_formed [(true, None)] [(false, None)]
                         frame1 _ ltac:(repeat constructor) Henc))).
Defined.

(** C7, witness: the camera of [main.py] before any start; a stream that
    sees one frame, then the flag cleared. *)
Lemma stream_bound_to_running_witness :
  mjpeg camera = inl (503, "Camera is not started. Use WS camera_start first.") ∧
  mjpeg_generator [(true, None); (true, Some frame1); (false, Some frame1);
                   (true, Some frame1)] =
    ((mjpeg_generator [(true, None); (true, Some frame1)]).1, true).
Proof.
  pose proof (stream_bound_to_running camera
                [(true, None); (true, Some frame1)] [(true, Some frame1)]
                (Some frame1) eq_refl
                ltac:(repeat constructor)) as (H1 & _ & _ & H2 & _ & _).
  split; [exact H1 | exact H2].
Defined.

(** ** Scenarios on the small runtime *)

Example scenario_missing_value :
  (on_text [] text_no_value (run capturing camera)).1 =
  Sent (PyDict {[ "type" := PyStr "error"; "error" := PyStr "missing_value";
                  "for" := PyStr "set_exposure" ]}).
Proof. vm_compute. done. Qed.

Example scenario_unknown_type :
  (on_text [] text_bogus camera).1 =
  Sent (PyDict {[ "type" := PyStr "error"; "error" := PyStr "unknown_type";
                  "msg_type" := PyStr "bogus" ]}).
Proof. vm_compute. done. Qed.

Example scenario_invalid_json :
  (on_text [] text_malformed camera).1 =
  Sent (PyDict {[ "type" := PyStr "error"; "error" := PyStr "invalid_json";
                  "raw" := PyStr "{not json" ]}).
Proof. vm_compute. done. Qed.

Example scenario_one_part :
  mjpeg_generator [(true, None); (true, Some frame1)] =
  ([ encode ("--frame" +:+ CRLF);
     encode ("Content-Type: image/jpeg" +:+ CRLF);
     encode ("Content-Length: 7" +:+ CRLF +:+ CRLF);
     [Byte.xff; Byte.xd8; Byte.x01; Byte.x02; Byte.x03; Byte.xff; Byte.xd9];
     encode CRLF ], false).
Proof. vm_compute. done. Qed.

(** A frame read before [stop] and published after it: the slot is filled
    again when [stop] has returned, until the thread's own cleanup. *)
Example scenario_late_publish :
  let s := run (capturing ++
                [ Bg (BgLock 0); Bg (BgRead 0 (Some frame1));
                  StopFlag; StopCleanup; Bg (BgLock 0) ]) camera in
  running s = false ∧ last_frame s = Some frame1 ∧
  last_frame (run [Bg (BgLock 0); Bg (BgLock 0)] s) = None.
Proof. vm_compute. done. Qed.

(** * Further properties *)

(** ** Property access, continued *)

Section PropertyAccessMore.
Context {F Frame Dev : Type} `{!Python F} `{!Cv2 F Frame Dev}.

Implicit Types (s : @CameraManager F Frame Dev) (win : list (@bg_label Frame Dev))
  (k : setter_id) (v : F) (c : @VideoCapture F Dev).

Lemma vc_set_writes_any c prop v :
  vc_writes (vc_set c prop v).2 =
  (vc_writes c ++ if isOpened c then [(prop, v)] else [])%list.
Proof.
  unfold vc_set, isOpened. destruct (vc_backend c) as [d|] eqn:Hd.
  - by destruct (dev_set d prop v).
  - cbn. by rewrite app_nil_r.
Qed.

Lemma setter_inr_inv k win v s result s' :
  setter_fun k win v s = (inr result, s') →
  is_open s = true ∧
  ∃ c, cap (run_bg win s) = Some c ∧
       s' = set_cap (Some (vc_set c (setter_prop k) v).2) (run_bg win s) ∧
       result = PyDict {[ "ok" := PyBool (vc_set c (setter_prop k) v).1;
                          "requested" := PyFloat v;
                          "applied" := PyFloat (vc_get (vc_set c (setter_prop k) v).2
                                                       (setter_prop k)) ]}.
Proof.
  rewrite setter_fun_unfold. unfold set_property.
  rewrite _ensure_open_is_open. destruct (is_open s); [|done].
  unfold write_prop. destruct (cap (run_bg win s)) as [c|] eqn:Hc; [|done].
  destruct (vc_set c (setter_prop k) v) as [ok c'] eqn:Hset.
  intros [= <- <-]. split; [done|]. exists c. by rewrite Hset.
Qed.

(** X1: a setter that returns has made one write to an open handle, of its
    own property with the value it was given, and none to a handle without
    backend; it leaves the flag, the frame slot, the threads, the
    configuration and the output as the capture threads left them. *)
Theorem setter_writes_one_property k win v s (result : value F) s' :
  setter_fun k win v s = (inr result, s') →
  ∃ c c',
    cap (run_bg win s) = Some c ∧ cap s' = Some c' ∧
    vc_writes c' =
      (vc_writes c ++ if isOpened c then [(setter_prop k, v)] else [])%list ∧
    isOpened c' = isOpened c ∧
    running s' = running (run_bg win s) ∧
    last_frame s' = last_frame (run_bg win s) ∧
    threads s' = threads (run_bg win s) ∧
    stdout s' = stdout (run_bg win s) ∧
    config s' = config s.
Proof.
  intros Hset. apply setter_inr_inv in Hset as (_ & c & Hc & -> & _).
  exists c, (vc_set c (setter_prop k) v).2. cbn.
  rewrite vc_set_writes_any, vc_set_isOpened, run_bg_config. done.
Qed.

(** X2: right after a setter has returned, [get_props] returns, changes
    nothing, and reports under the setter's key the value the setter
    returned as [applied]. *)
Theorem get_props_agrees_with_setter k v s (result : value F) s' :
  setter_fun k [] v s = (inr result, s') →
  ∃ props,
    get_props [] s' = (inr props, s') ∧
    item props (props_key k) = item result "applied" ∧
    item result "requested" = Some (PyFloat v).
Proof.
  intros Hset. apply setter_inr_inv in Hset as (Hopen & c & Hc & -> & ->).
  cbn [run_bg fold_left] in *.
  set (c' := (vc_set c (setter_prop k) v).2).
  assert (Hopen' : is_open (set_cap (Some c') s) = true).
  { unfold is_open in *. cbn. subst c'. rewrite vc_set_isOpened.
    by rewrite Hc in Hopen. }
  unfold get_props. rewrite _ensure_open_is_open, Hopen'.
  cbn [run_bg fold_left]. unfold read_props. cbn [cap set_cap].
  eexists. split; [reflexivity|]. cbn [item]. split; [by destruct k|done].
Qed.

(** X3: [get_props] on an open session whose handle is still there when
    it takes the lock returns ten entries, the read-back of the ten
    properties under their names, and writes nothing. *)
Theorem get_props_reads_ten_properties win s c :
  is_open s = true →
  cap (run_bg win s) = Some c →
  ∃ d, get_props win s = (inr (PyDict d), run_bg win s) ∧
       size d = 10%nat ∧
       d !! "white_balance_auto" = Some (PyFloat (vc_get c CAP_PROP_AUTO_WB)) ∧
       d !! "white_balance" = Some (PyFloat (vc_get c 23)) ∧
       d !! "auto_exposure" = Some (PyFloat (vc_get c CAP_PROP_AUTO_EXPOSURE)) ∧
       d !! "exposure" = Some (PyFloat (vc_get c CAP_PROP_EXPOSURE)) ∧
       d !! "gain" = Some (PyFloat (vc_get c CAP_PROP_GAIN)) ∧
       d !! "autofocus" = Some (PyFloat (vc_get c CAP_PROP_AUTOFOCUS)) ∧
       d !! "focus" = Some (PyFloat (vc_get c CAP_PROP_FOCUS)) ∧
       d !! "zoom" = Some (PyFloat (vc_get c CAP_PROP_ZOOM)) ∧
       d !! "width" = Some (PyFloat (vc_get c CAP_PROP_FRAME_WIDTH)) ∧
       d !! "height" = Some (PyFloat (vc_get c CAP_PROP_FRAME_HEIGHT)).
Proof.
  intros Hopen Hc. unfold get_props.
  rewrite _ensure_open_is_open, Hopen. unfold read_props. rewrite Hc.
  eexists. split; [reflexivity|]. repeat split; reflexivity.
Qed.

(** X4: when the handle is open at [_ensure_open] and gone when the call
    takes the lock again, a capture thread having cleaned up in between,
    a setter and [get_props] raise [AttributeError], not the not-open
    error, and write nothing. *)
Theorem handle_lost_between_check_and_use k win v s :
  is_open s = true →
  cap (run_bg win s) = None →
  setter_fun k win v s =
    (inl (AttributeError "'NoneType' object has no attribute 'set'"),
     run_bg win s) ∧
  get_props win s =
    (inl (AttributeError "'NoneType' object has no attribute 'get'"),
     run_bg win s).
Proof.
  intros Hopen Hc. rewrite setter_fun_unfold.
  unfold set_property, get_props, write_prop, read_props.
  by rewrite _ensure_open_is_open, Hopen, Hc.
Qed.

End PropertyAccessMore.

(** ** The capture thread, continued *)

Section CaptureThread.
Context {F Frame Dev : Type} `{!Python F} `{!Cv2 F Frame Dev}.

Implicit Types (s : @CameraManager F Frame Dev) (l : @bg_label Frame Dev)
  (p : @pc F Frame Dev) (i : nat).


Lemma set_pc_lookup i p p0 s :
  threads s !! i = Some p0 → threads (set_pc i p s) !! i = Some p.
Proof.
  intros Hi. cbn. apply list_lookup_insert_eq. by eapply lookup_lt_Some.
Qed.

Lemma bg_step_handle_has_owner l s :
  handle_has_owner s → handle_has_owner (bg_step l s).
Proof.
  unfold handle_has_owner, bg_step. intros Hinv.
  destruct l as [i r|i e0|i|i r]; cbn [bg_thread];
    destruct (threads s !! i) as [p0|] eqn:Hth; try done;
    destruct p0; try done;
    repeat match goal with
      | |- context [match _open_camera ?c ?f with _ => _ end] =>
          destruct (_open_camera c f) eqn:?
      | |- context [if negb (running s) then _ else _] =>
          destruct (running s) eqn:?; cbn [negb]
      | |- context [match cap s with _ => _ end] => destruct (cap s) eqn:?
      | |- context [match ?r with Some _ => _ | None => _ end] => is_var r; destruct r
      end;
    cbn;
    try (by left);
    try (right; by eapply producer_insert_in_flight);
    (destruct Hinv as [Hnone|Hprod]; [by left|right];
     eapply producer_insert; [done| |done]; done).
Qed.

Lemma step_handle_has_owner (l : @label F Frame Dev) s :
  handle_has_owner s → handle_has_owner (step l s).
Proof.
  destruct l as [| | |prop v|b]; cbn [step].
  - unfold start, handle_has_owner. destruct (running s); [done|]. cbn.
    intros [Hnone|(j & p & Hj & Hp)]; [by left|right].
    exists j, p. split; [|done]. by apply lookup_app_l_Some.
  - done.
  - by left.
  - unfold write_prop, handle_has_owner.
    destruct (cap s) as [c|] eqn:Hc; [|cbn; intros _; by left].
    destruct (vc_set c prop v). cbn. intros [?|?]; [done|by right].
  - apply bg_step_handle_has_owner.
Qed.

Lemma run_handle_has_owner (tr : list (@label F Frame Dev)) s :
  handle_has_owner s → handle_has_owner (run tr s).
Proof.
  revert s. induction tr as [|l tr IH]; intros s Hs; [done|].
  apply (IH (step l s)). by apply step_handle_has_owner.
Qed.

(** X6: in every reachable state a stored handle has an owner, a capture
    thread that has entered its loop and not finished its cleanup; once the
    threads are done the session is closed. *)
Theorem handle_held_by_thread_in_flight (cfg : Config) (tr : list (@label F Frame Dev)) :
  let s := run tr (__init__ cfg) in
  (cap s = None ∨ ∃ i p, threads s !! i = Some p ∧ in_flight p = true) ∧
  (Forall (λ p, in_flight p = false) (threads s) →
   is_open s = false ∧ last_frame s = None).
Proof.
  intros s.
  assert (Hcap : handle_has_owner s).
  { apply run_handle_has_owner. by left. }
  split; [done|]. intros Hdone.
  assert (Hno : ¬ ∃ i p, threads s !! i = Some p ∧ in_flight p = true).
  { intros (i & p & Hi & Hp). rewrite Forall_lookup in Hdone.
    specialize (Hdone i p Hi). cbn in Hdone. congruence. }
  split.
  - destruct Hcap as [Hcap|?]; [|done]. unfold is_open. by rewrite Hcap.
  - destruct (run_frame_has_producer tr (__init__ cfg) (or_introl eq_refl)); done.
Qed.

Lemma bg_read_at s i (r : option Frame) :
  threads s !! i = Some PcRead →
  bg_step (BgRead i r) s =
  set_pc i (match r with Some f => PcPublish f | None => PcCheck end) s.
Proof. intros Hi. unfold bg_step. cbn [bg_thread]. rewrite Hi. by destruct r. Qed.

Lemma bg_read_stutter s i (r : option Frame) p :
  threads s !! i = Some p → p ≠ PcRead → bg_step (BgRead i r) s = s.
Proof. intros Hi Hp. unfold bg_step. cbn [bg_thread]. rewrite Hi. by destruct p. Qed.

Lemma bg_lock_publish s i (f : Frame) :
  threads s !! i = Some (PcPublish f) →
  bg_step (BgLock i) s = set_pc i PcCheck (set_last_frame (Some f) s).
Proof. intros Hi. unfold bg_step. cbn [bg_thread]. by rewrite Hi. Qed.

Lemma bg_lock_check_stopped s i :
  threads s !! i = Some PcCheck → running s = false →
  bg_step (BgLock i) s = set_pc i PcCleanup s.
Proof. intros Hi Hr. unfold bg_step. cbn [bg_thread]. by rewrite Hi, Hr. Qed.

Lemma bg_lock_cleanup s i :
  threads s !! i = Some PcCleanup →
  bg_step (BgLock i) s = set_pc i PcDone (clear (print "[CAM] capture stopping" s)).
Proof. intros Hi. unfold bg_step. cbn [bg_thread]. by rewrite Hi. Qed.

Lemma bg_lock_done s i :
  threads s !! i = Some PcDone → bg_step (BgLock i) s = s.
Proof. intros Hi. unfold bg_step. cbn [bg_thread]. by rewrite Hi. Qed.

Lemma cleaned_state s i :
  (i < length (threads s))%nat → running s = false →
  let s' := set_pc i PcDone (clear (print "[CAM] capture stopping" s)) in
  threads s' !! i = Some PcDone ∧
  cap s' = None ∧ last_frame s' = None ∧ running s' = false.
Proof.
  intros Hlen Hr. cbn. split; [|done]. by apply list_lookup_insert_eq.
Qed.

Lemma finish_from_cleanup s i :
  threads s !! i = Some PcCleanup → running s = false →
  let s' := bg_step (BgLock i) s in
  threads s' !! i = Some PcDone ∧
  cap s' = None ∧ last_frame s' = None ∧ running s' = false.
Proof.
  intros Hi Hr. cbv zeta. rewrite (bg_lock_cleanup s i) by done.
  apply cleaned_state; [by eapply lookup_lt_Some|done].
Qed.

Lemma finish_from_check s i :
  threads s !! i = Some PcCheck → running s = false →
  let s' := bg_step (BgLock i) (bg_step (BgLock i) s) in
  threads s' !! i = Some PcDone ∧
  cap s' = None ∧ last_frame s' = None ∧ running s' = false.
Proof.
  intros Hi Hr. cbv zeta. rewrite (bg_lock_check_stopped s i) by done.
  apply finish_from_cleanup; [by eapply set_pc_lookup|done].
Qed.

(** X7: once [running] is false, a capture thread that is in its loop ends
    within one read and three locked blocks of its own, whatever the read
    returns, and leaves the handle and the frame slot null and the flag
    false. *)
Theorem capture_thread_winds_down s i p (r : option Frame) :
  threads s !! i = Some p →
  in_flight p = true →
  running s = false →
  let s' := run_bg (wind_down i r) s in
  threads s' !! i = Some PcDone ∧
  cap s' = None ∧ last_frame s' = None ∧ running s' = false.
Proof.
  intros Hi Hp Hr s'. subst s'.
  change (run_bg (wind_down i r) s)
    with (bg_step (BgLock i) (bg_step (BgLock i) (bg_step (BgLock i)
            (bg_step (BgRead i r) s)))).
  destruct p; try done.
  - rewrite (bg_read_stutter s i r PcCheck) by done.
    pose proof (finish_from_check s i Hi Hr) as Hfin. cbv zeta in Hfin.
    by rewrite bg_lock_done by apply Hfin.
  - rewrite (bg_read_at s i r) by done.
    destruct r as [fr|].
    + rewrite (bg_lock_publish (set_pc i (PcPublish fr) s) i fr)
        by (by eapply set_pc_lookup).
      apply finish_from_check; [|done].
      by eapply (set_pc_lookup i PcCheck), (set_pc_lookup i (PcPublish fr)).
    + assert (Hfin : let s' := bg_step (BgLock i) (bg_step (BgLock i) (set_pc i PcCheck s)) in
                     threads s' !! i = Some PcDone ∧
                     cap s' = None ∧ last_frame s' = None ∧ running s' = false).
      { apply finish_from_check; [by eapply set_pc_lookup|done]. }
      cbv zeta in Hfin. by rewrite bg_lock_done by apply Hfin.
  - rewrite (bg_read_stutter s i r (PcPublish f)) by done.
    rewrite (bg_lock_publish s i f) by done.
    apply finish_from_check; [by eapply set_pc_lookup|done].
  - rewrite (bg_read_stutter s i r PcCleanup) by done.
    pose proof (finish_from_cleanup s i Hi Hr) as Hfin. cbv zeta in Hfin.
    by rewrite !(bg_lock_done (bg_step (BgLock i) s) i) by apply Hfin.
Qed.

Lemma failed_read_round s i (c : @VideoCapture F Dev) :
  threads s !! i = Some PcRead → running s = true → cap s = Some c →
  run_bg [BgRead i None; BgLock i] s = s.
Proof.
  intros Hi Hr Hc. unfold run_bg. cbn [fold_left].
  unfold bg_step at 2. cbn [bg_thread]. rewrite Hi.
  unfold bg_step. cbn [bg_thread threads set_pc running cap].
  rewrite list_lookup_insert_eq by (by eapply lookup_lt_Some).
  rewrite Hr, Hc. cbn [negb]. unfold set_pc. cbn.
  rewrite list_insert_insert_eq, list_insert_id by done.
  by destruct s.
Qed.

(** X8: reads that fail do not end the capture loop and do not touch the
    camera: after any number of them the thread is back at its read and
    the state, the last frame published included, is the same. *)
Theorem failed_reads_keep_loop_and_frame s i (c : @VideoCapture F Dev) (n : nat) :
  threads s !! i = Some PcRead →
  running s = true →
  cap s = Some c →
  run_bg (failed_reads i n) s = s.
Proof.
  intros Hi Hr Hc. induction n as [|n IH]; [done|].
  cbn [failed_reads].
  change (run_bg (BgRead i None :: BgLock i :: failed_reads i n) s)
    with (run_bg (failed_reads i n) (run_bg [BgRead i None; BgLock i] s)).
  by rewrite (failed_read_round s i c).
Qed.

End CaptureThread.

(** ** The stream, continued *)

Section StreamMore.
Context {F Frame Dev : Type} `{!Python F} `{!Cv2 F Frame Dev}.

Implicit Types (obs : list (bool * option Frame)) (jpg wire rest : list Byte.byte).

Lemma encode_app (a b : string) : encode (a +:+ b) = (encode a ++ encode b)%list.
Proof.
  unfold encode, list_byte_of_string. induction a as [|ch a IH]; [done|].
  change (String ch a +:+ b) with (String ch (a +:+ b)). cbn. by rewrite IH.
Qed.

Lemma strip_bytes_app (p l : list Byte.byte) : strip_bytes p (p ++ l) = Some l.
Proof.
  induction p as [|a p IH]; [done|]. cbn.
  by rewrite (Byte.byte_dec_lb (eq_refl a)).
Qed.

Lemma span_digits_uint (d : Decimal.uint) rest :
  span_digits (encode (NilEmpty.string_of_uint d) ++ encode CRLF ++ rest) =
  (encode (NilEmpty.string_of_uint d), (encode CRLF ++ rest)%list).
Proof.
  induction d; [reflexivity|..];
    (cbn [NilEmpty.string_of_uint];
     match goal with
     | |- span_digits (encode (String ?a ?x) ++ ?y) = _ =>
         change (span_digits (encode (String a x) ++ y))
           with (let '(ds, r) := span_digits (encode x ++ y) in
                 (byte_of_ascii a :: ds, r))
     end;
     by rewrite IHd).
Qed.

Lemma concat_part jpg :
  concat (part jpg) =
  (encode ("--frame" +:+ CRLF) ++ encode ("Content-Type: image/jpeg" +:+ CRLF) ++
   encode "Content-Length: " ++ encode (str_len (length jpg)) ++
   encode CRLF ++ encode CRLF ++ jpg ++ encode CRLF)%list.
Proof.
  unfold part, boundary. cbn [concat]. rewrite !encode_app, app_nil_r.
  by rewrite <- ?app_assoc.
Qed.

Lemma read_part_part jpg rest :
  read_part (concat (part jpg) ++ rest) = Some (jpg, rest).
Proof.
  rewrite concat_part, <- ?app_assoc. unfold read_part.
  rewrite !strip_bytes_app. unfold str_len at 1.
  rewrite span_digits_uint.
  change (encode (NilEmpty.string_of_uint (Nat.to_uint (length jpg))))
    with (list_byte_of_string (str_len (length jpg))).
  rewrite string_of_list_byte_of_string, parse_len_str_len.
  rewrite encode_app, (app_assoc (encode CRLF) (encode CRLF)), strip_bytes_app.
  destruct (Nat.ltb_spec (length (jpg ++ encode CRLF ++ rest)) (length jpg)) as [Hlt|_].
  { rewrite length_app in Hlt. lia. }
  by rewrite drop_app_length, take_app_length, strip_bytes_app.
Qed.

Lemma part_nonempty jpg rest : (concat (part jpg) ++ rest)%list ≠ [].
Proof. by rewrite concat_part. Qed.

Lemma read_parts_parts (jpgs : list (list Byte.byte)) :
  read_parts (length jpgs) (concat (concat (map part jpgs))) = Some jpgs.
Proof.
  induction jpgs as [|jpg jpgs IH]; [done|].
  cbn [map concat length]. rewrite concat_app.
  cbn [read_parts].
  destruct (concat (part jpg) ++ concat (concat (map part jpgs)))%list eqn:Hw.
  { by apply part_nonempty in Hw. }
  rewrite <- Hw, read_part_part. by rewrite IH.
Qed.

(** X9: the bytes of a stream read back: a reader that follows the
    boundary line, the content type line and the content length recovers
    from what the generator yielded exactly the payloads that were
    encoded, in order, whatever bytes they contain. *)
Theorem stream_reads_back obs :
  read_parts (length (encoded_frames obs)) (concat (mjpeg_generator obs).1) =
  Some (encoded_frames obs) ∧
  length (mjpeg_generator obs).1 = (5 * length (encoded_frames obs))%nat.
Proof.
  rewrite mjpeg_generator_encoded. split; [apply read_parts_parts|].
  induction (encoded_frames obs) as [|jpg jpgs IH]; [done|].
  cbn [map concat]. rewrite length_app, IH. cbn. lia.
Qed.

(** The generator over two runs of observations: if it returned in the
    first, the second is not looked at; otherwise what it yields is what
    it yields on each, one after the other. *)
Lemma mjpeg_generator_app (a b : list (bool * option Frame)) :
  mjpeg_generator (a ++ b) =
  if (mjpeg_generator a).2 then mjpeg_generator a
  else (((mjpeg_generator a).1 ++ (mjpeg_generator b).1)%list,
        (mjpeg_generator b).2).
Proof.
  induction a as [|[running frame] a IH].
  - cbn. by destruct (mjpeg_generator b).
  - cbn [app mjpeg_generator].
    destruct (mjpeg_iteration running frame) as [| |chunks]; [done|done|].
    rewrite IH. destruct (mjpeg_generator a) as [out [|]]; cbn; [done|].
    by rewrite app_assoc.
Qed.

(** X11: observations without a frame, and frames the encoder refuses,
    yield nothing and do not end the stream. *)
Theorem stream_skips_missing_and_refused_frames obs :
  Forall (λ o, o.1 = true ∧
               match o.2 with
               | None => True
               | Some fr => imencode ".jpg" fr [IMWRITE_JPEG_QUALITY; 100] = None
               end) obs →
  mjpeg_generator obs = ([], false).
Proof.
  induction 1 as [|[running frame] obs [Hrun Hfr] _ IH]; [done|].
  cbn in Hrun, Hfr. subst running. cbn [mjpeg_generator]. unfold mjpeg_iteration.
  cbn [negb]. destruct frame as [fr|]; [|done]. by rewrite Hfr.
Qed.

End StreamMore.

(** ** The control channel, continued *)

Section ControlChannelMore.
Context {F Frame Dev : Type} `{!Python F} `{!Cv2 F Frame Dev}.

Implicit Types (s : @CameraManager F Frame Dev) (win : list (@bg_label Frame Dev))
  (k : setter_id) (d : gmap string (value F))
  (inbox : list (string * list (@bg_label Frame Dev))).

Lemma on_text_set_converted k win msg_text d (val : value F) (x : F) s :
  json_loads msg_text = Some (PyDict d) →
  d !! "type" = Some (PyStr (setter_name k)) →
  d !! "value" = Some val →
  py_float val = inr x →
  on_text win msg_text s =
    match setter_fun k win x (print ("[WS] received:" +:+ msg_text) s) with
    | (inr result, s') => (Sent (ack_result (setter_name k) result), s')
    | (inl e, s') => (Sent (error_exception (PyStr (setter_name k)) e), s')
    end.
Proof.
  intros Hloads Htype Hval Hx. unfold on_text. rewrite Hloads.
  cbn [py_get]. rewrite Htype. cbn [from_option id].
  rewrite dispatch_setter. unfold set_branch. cbn [py_get].
  rewrite Hval. cbn [from_option id].
  destruct val; cbn [is_None]; try (rewrite Hx);
    try (by destruct (setter_fun k win x _) as [[e|result] s']).
Qed.

(** X12: a [set_*] message with a value that [float] accepts, sent while
    the session is closed, is answered with the [exception] error whose
    detail is the not-open message, and the camera is not touched. *)
Theorem set_message_on_closed_session k win msg_text d (val : value F) (x : F) s :
  json_loads msg_text = Some (PyDict d) →
  d !! "type" = Some (PyStr (setter_name k)) →
  d !! "value" = Some val →
  py_float val = inr x →
  is_open s = false →
  on_text win msg_text s =
    (Sent (PyDict {[ "type" := PyStr "error"; "error" := PyStr "exception";
                     "msg_type" := PyStr (setter_name k);
                     "detail" := PyStr "Camera is not started/opened" ]}),
     print ("[WS] received:" +:+ msg_text) s).
Proof.
  intros Hloads Htype Hval Hx Hclosed.
  rewrite (on_text_set_converted k win msg_text d val x s) by done.
  rewrite setter_fun_unfold. unfold set_property.
  rewrite _ensure_open_is_open.
  change (is_open (print _ s)) with (is_open s). by rewrite Hclosed.
Qed.

(** X13: a [set_*] message with a value that [float] accepts, on an open
    session whose handle is there at the write, is acknowledged with the
    setter's name and a result whose [requested] is the converted value,
    not the value as sent, whose [ok] is the driver's answer and whose
    [applied] is the read-back; the one write is the converted value. *)
Theorem set_message_acknowledged k win msg_text d (val : value F) (x : F) s
    (c : @VideoCapture F Dev) :
  json_loads msg_text = Some (PyDict d) →
  d !! "type" = Some (PyStr (setter_name k)) →
  d !! "value" = Some val →
  py_float val = inr x →
  is_open s = true →
  cap (run_bg win (print ("[WS] received:" +:+ msg_text) s)) = Some c →
  let prop := setter_prop k in
  let c' := (vc_set c prop x).2 in
  (on_text win msg_text s).1 =
    Sent (PyDict {[ "type" := PyStr "ack"; "action" := PyStr (setter_name k);
                    "result" :=
                      PyDict {[ "ok" := PyBool (vc_set c prop x).1;
                                "requested" := PyFloat x;
                                "applied" := PyFloat (vc_get c' prop) ]} ]}) ∧
  cap (on_text win msg_text s).2 = Some c' ∧
  vc_writes c' = (vc_writes c ++ if isOpened c then [(prop, x)] else [])%list.
Proof.
  intros Hloads Htype Hval Hx Hopen Hc prop c'. subst prop c'.
  rewrite (on_text_set_converted k win msg_text d val x s) by done.
  rewrite setter_fun_unfold. unfold set_property.
  rewrite _ensure_open_is_open.
  change (is_open (print _ s)) with (is_open s). rewrite Hopen.
  unfold write_prop. rewrite Hc. rewrite vc_set_writes_any.
  by destruct (vc_set c (setter_prop k) x).
Qed.

Lemma on_text_sent_ack_or_error win msg_text s r :
  (on_text win msg_text s).1 = Sent r → ack_or_error r = true.
Proof.
  unfold on_text. destruct (json_loads msg_text) as [msg|].
  - destruct (py_get msg "type") as [e|msg_type]; [done|].
    destruct (dispatch _ _ _ _) as [[e|r'] s'] eqn:Hd.
    + by intros [= <-].
    + intros [= <-]. eapply ack_or_error_dispatch. by rewrite Hd.
  - destruct (json_loads_other_error msg_text); [done|]. by intros [= <-].
Qed.

Lemma receive_loop_responses inbox s :
  let '(rs, e, _) := receive_loop inbox s in
  Forall (λ r, ack_or_error r = true) rs ∧
  (length rs ≤ length inbox)%nat ∧
  (e = None → length rs = length inbox) ∧
  (is_Some e → (length rs < length inbox)%nat) ∧
  (Forall (λ m, undecodable_or_object (F := F) m.1 = true) inbox → e = None).
Proof.
  revert s. induction inbox as [|[msg_text win] inbox IH]; intros s.
  - cbn. repeat split; done.
  - cbn [receive_loop].
    destruct (on_text win msg_text s) as [[r|e0] s1] eqn:Hon.
    + specialize (IH s1). destruct (receive_loop inbox s1) as [[rs e] s2].
      destruct IH as (Hall & Hle & Hnone & Hsome & Hgood).
      assert (Hr : ack_or_error r = true).
      { apply (on_text_sent_ack_or_error win msg_text s). by rewrite Hon. }
      cbn [length]. repeat split.
      * by constructor.
      * lia.
      * intros He. by rewrite Hnone.
      * intros He. specialize (Hsome He). lia.
      * intros Hin. apply Forall_cons in Hin as [_ Hin]. by apply Hgood.
    + cbn [length]. repeat split; try done; try lia.
      intros Hin. apply Forall_cons in Hin as [Hhd _]. cbn in Hhd.
      destruct (object_message_one_response win msg_text s) as (r' & Hr' & _).
      { unfold undecodable_or_object in Hhd.
        destruct (json_loads msg_text); [done|].
        by destruct (json_loads_other_error msg_text). }
      rewrite Hon in Hr'. done.
Qed.

(** After the text that raises, nothing of the inbox is looked at. *)
Lemma receive_loop_escape inbox msg_text win rest s rs x s' :
  receive_loop (inbox ++ [(msg_text, win)]) s = (rs, Some x, s') →
  length rs = length inbox →
  receive_loop (inbox ++ (msg_text, win) :: rest) s = (rs, Some x, s').
Proof.
  revert s rs. induction inbox as [|[t0 w0] inbox IH]; intros s rs.
  - cbn [app receive_loop].
    destruct (on_text win msg_text s) as [[r|e0] s1]; [|done].
    destruct rs; [|done]. by intros [=].
  - cbn [app receive_loop].
    destruct (on_text w0 t0 s) as [[r|e0] s1].
    + destruct (receive_loop (inbox ++ [(msg_text, win)]) s1)
        as [[rs1 e1] s2] eqn:Hloop.
      intros [= <- -> <-] Hlen. cbn in Hlen.
      by rewrite (IH s1 rs1 Hloop) by lia.
    + intros [= <- _ _]. done.
Qed.

(** X14: over a connection. Whatever the texts, every message sent is of
    type ["ack"] or ["error"], there is at most one per text received, the
    handler that ends without an exception has answered every text, and
    the camera is stopped at the end. When the texts before a given one
    have been answered and that one raises, what follows it in the inbox
    changes nothing: the same responses, the same exception, the same
    camera at the end. *)
Theorem connection_responses
    inbox msg_text win (rest : list (string * list (@bg_label Frame Dev)))
    (final_win : list (@bg_label Frame Dev)) s x :
  (ws_control (inbox ++ [(msg_text, win)]) final_win s).1.2 = Some x →
  length (ws_control (inbox ++ [(msg_text, win)]) final_win s).1.1 = length inbox →
  ws_control (inbox ++ (msg_text, win) :: rest) final_win s =
    ws_control (inbox ++ [(msg_text, win)]) final_win s ∧
  (∀ texts,
     let rs := (ws_control texts final_win s).1.1 in
     let e := (ws_control texts final_win s).1.2 in
     let s' := (ws_control texts final_win s).2 in
     Forall (λ r, ack_or_error r = true) rs ∧
     (length rs ≤ length texts)%nat ∧
     (e = None → length rs = length texts) ∧
     (is_Some e → (length rs < length texts)%nat) ∧
     running s' = false ∧ cap s' = None ∧ last_frame s' = None).
Proof.
  intros He Hlen. split.
  - unfold ws_control in *.
    destruct (receive_loop (inbox ++ [(msg_text, win)]) _) as [[rs e] s1] eqn:Hloop.
    cbn in He, Hlen. subst e.
    by rewrite (receive_loop_escape _ _ _ rest _ _ _ _ Hloop Hlen).
  - intros texts. unfold ws_control.
    pose proof (receive_loop_responses texts (print "[WS] client connected" s)) as H.
    destruct (receive_loop texts _) as [[rs e] s1]. cbn.
    destruct H as (? & ? & ? & ? & _).
    repeat (split; [done|]). split; [|done]. by apply run_bg_running.
Qed.


End ControlChannelMore.

(** ** The further properties on the small runtime *)

(** X1, witness: a gain written on the capturing camera. *)
Lemma setter_writes_one_property_witness :
  ∃ result s' c c',
    setter_fun Gain [] (of_Z 5) (run capturing camera) = (inr result, s') ∧
    cap (run_bg [] (run capturing camera)) = Some c ∧ cap s' = Some c' ∧
    vc_writes c' =
      (vc_writes c ++ if isOpened c then [(CAP_PROP_GAIN, of_Z 5)] else [])%list.
Proof.
  assert (H : ∃ result s',
             setter_fun Gain [] (of_Z 5) (run capturing camera) = (inr result, s'))
    by (eexists _, _; vm_compute; reflexivity).
  destruct H as (result & s' & H).
  destruct (setter_writes_one_property Gain [] (of_Z 5) (run capturing camera)
              result s' H) as (c & c' & Hc & Hc' & Hw & _).
  exists result, s', c, c'. split; [exact H|]. split; [exact Hc|].
  split; [exact Hc'|exact Hw].
Defined.

(** X2, witness: the focus written, then read with the other properties. *)
Lemma get_props_agrees_with_setter_witness :
  ∃ result s' props,
    setter_fun Focus [] (of_Z 40) (run capturing camera) = (inr result, s') ∧
    get_props [] s' = (inr props, s') ∧
    item props "focus" = item result "applied".
Proof.
  assert (H : ∃ result s',
             setter_fun Focus [] (of_Z 40) (run capturing camera) = (inr result, s'))
    by (eexists _, _; vm_compute; reflexivity).
  destruct H as (result & s' & H).
  destruct (get_props_agrees_with_setter Focus (of_Z 40) (run capturing camera)
              result s' H) as (props & Hget & Hitem & _).
  exists result, s', props. split; [exact H|]. split; [exact Hget|exact Hitem].
Defined.

(** X3, witness: the capturing camera. *)
Lemma get_props_reads_ten_properties_witness :
  ∃ c d, cap (run_bg [] (run capturing camera)) = Some c ∧
         get_props [] (run capturing camera) =
           (inr (PyDict d), run_bg [] (run capturing camera)) ∧
         size d = 10%nat ∧
         d !! "width" = Some (PyFloat (vc_get c CAP_PROP_FRAME_WIDTH)).
Proof.
  assert (Ho : is_open (run capturing camera) = true) by (vm_compute; reflexivity).
  assert (Hc : ∃ c, cap (run_bg [] (run capturing camera)) = Some c)
    by (eexists; vm_compute; reflexivity).
  destruct Hc as (c & Hc).
  destruct (get_props_reads_ten_properties [] (run capturing camera) c Ho Hc)
    as (d & Hget & Hsize & Hrest).
  exists c, d. split; [exact Hc|]. split; [exact Hget|]. split; [exact Hsize|].
  destruct Hrest as (_ & _ & _ & _ & _ & _ & _ & _ & Hw & _). exact Hw.
Defined.

(** X4, witness: the cleanup of the first thread falls between the test
    and the write. *)
Lemma handle_lost_between_check_and_use_witness :
  is_open (run late_cleanup camera) = true ∧
  cap (run_bg [BgLock 0] (run late_cleanup camera)) = None ∧
  setter_fun Gain [BgLock 0] (of_Z 5) (run late_cleanup camera) =
    (inl (AttributeError "'NoneType' object has no attribute 'set'"),
     run_bg [BgLock 0] (run late_cleanup camera)).
Proof.
  assert (Ho : is_open (run late_cleanup camera) = true)
    by (vm_compute; reflexivity).
  assert (Hc : cap (run_bg [BgLock 0] (run late_cleanup camera)) = None)
    by (vm_compute; reflexivity).
  split; [exact Ho|]. split; [exact Hc|].
  exact (proj1 (handle_lost_between_check_and_use Gain [BgLock 0] (of_Z 5)
                  (run late_cleanup camera) Ho Hc)).
Defined.

(** X7, witness: the capturing camera after the first locked block of
    [stop]. *)
Lemma capture_thread_winds_down_witness :
  let s' := run_bg (wind_down 0 None) (run (capturing ++ [StopFlag]) camera) in
  threads s' !! 0%nat = Some PcDone ∧
  cap s' = None ∧ last_frame s' = None ∧ running s' = false.
Proof.
  assert (Hi : threads (run (capturing ++ [StopFlag]) camera) !! 0%nat
               = Some PcCheck) by (vm_compute; reflexivity).
  assert (Hr : running (run (capturing ++ [StopFlag]) camera) = false)
    by (vm_compute; reflexivity).
  exact (capture_thread_winds_down (run (capturing ++ [StopFlag]) camera)
           0 PcCheck None Hi eq_refl Hr).
Defined.

(** X8, witness: three reads that fail after a frame has been published. *)
Lemma failed_reads_keep_loop_and_frame_witness :
  let s := run (capturing ++ [Bg (BgLock 0)]) camera in
  run_bg (failed_reads 0 3) s = s.
Proof.
  cbv zeta.
  assert (Hi : threads (run (capturing ++ [Bg (BgLock 0)]) camera) !! 0%nat
               = Some PcRead) by (vm_compute; reflexivity).
  assert (Hr : running (run (capturing ++ [Bg (BgLock 0)]) camera) = true)
    by (vm_compute; reflexivity).
  assert (Hc : ∃ c, cap (run (capturing ++ [Bg (BgLock 0)]) camera) = Some c)
    by (eexists; vm_compute; reflexivity).
  destruct Hc as (c & Hc).
  exact (failed_reads_keep_loop_and_frame
           (run (capturing ++ [Bg (BgLock 0)]) camera) 0 c 3 Hi Hr Hc).
Defined.

(** X11, witness: two observations before the first frame. *)
Lemma stream_skips_missing_and_refused_frames_witness :
  mjpeg_generator (Frame := Frame) [(true, None); (true, None)] = ([], false).
Proof.
  apply stream_skips_missing_and_refused_frames.
  repeat constructor.
Defined.

(** X12, witness: the focus set before any start. *)
Lemma set_message_on_closed_session_witness :
  on_text [] text_numeric_string camera =
  (Sent (PyDict {[ "type" := PyStr "error"; "error" := PyStr "exception";
                   "msg_type" := PyStr (setter_name Focus);
                   "detail" := PyStr "Camera is not started/opened" ]}),
   print ("[WS] received:" +:+ text_numeric_string) camera).
Proof.
  assert (Hl : json_loads text_numeric_string =
               Some (PyDict {[ "type" := PyStr "set_focus";
                               "value" := PyStr "12" ]}))
    by (vm_compute; reflexivity).
  assert (Ht : ({[ "type" := PyStr "set_focus"; "value" := PyStr "12" ]}
                  : gmap string (value F)) !! "type"
               = Some (PyStr (setter_name Focus))) by (vm_compute; reflexivity).
  assert (Hv : ({[ "type" := PyStr "set_focus"; "value" := PyStr "12" ]}
                  : gmap string (value F)) !! "value"
               = Some (PyStr "12")) by (vm_compute; reflexivity).
  assert (Hx : py_float (PyStr "12") = inr (of_Z 12)) by (vm_compute; reflexivity).
  assert (Ho : is_open camera = false) by (vm_compute; reflexivity).
  exact (set_message_on_closed_session Focus [] text_numeric_string
           _ (PyStr "12") (of_Z 12) camera Hl Ht Hv Hx Ho).
Defined.

(** X13, witness: the focus sent as the string [12] to the capturing
    camera. *)
Lemma set_message_acknowledged_witness :
  ∃ c, cap (run_bg [] (print ("[WS] received:" +:+ text_numeric_string)
                         (run capturing camera))) = Some c ∧
       let c' := (vc_set c CAP_PROP_FOCUS (of_Z 12)).2 in
       (on_text [] text_numeric_string (run capturing camera)).1 =
         Sent (PyDict {[ "type" := PyStr "ack";
                         "action" := PyStr (setter_name Focus);
                         "result" :=
                           PyDict {[ "ok" := PyBool (vc_set c CAP_PROP_FOCUS (of_Z 12)).1;
                                     "requested" := PyFloat (of_Z 12);
                                     "applied" := PyFloat (vc_get c' CAP_PROP_FOCUS) ]} ]}) ∧
       cap (on_text [] text_numeric_string (run capturing camera)).2 = Some c'.
Proof.
  assert (Hl : json_loads text_numeric_string =
               Some (PyDict {[ "type" := PyStr "set_focus";
                               "value" := PyStr "12" ]}))
    by (vm_compute; reflexivity).
  assert (Ht : ({[ "type" := PyStr "set_focus"; "value" := PyStr "12" ]}
                  : gmap string (value F)) !! "type"
               = Some (PyStr (setter_name Focus))) by (vm_compute; reflexivity).
  assert (Hv : ({[ "type" := PyStr "set_focus"; "value" := PyStr "12" ]}
                  : gmap string (value F)) !! "value"
               = Some (PyStr "12")) by (vm_compute; reflexivity).
  assert (Hx : py_float (PyStr "12") = inr (of_Z 12)) by (vm_compute; reflexivity).
  assert (Ho : is_open (run capturing camera) = true) by (vm_compute; reflexivity).
  assert (Hc : ∃ c, cap (run_bg [] (print ("[WS] received:" +:+ text_numeric_string)
                                      (run capturing camera))) = Some c)
    by (eexists; vm_compute; reflexivity).
  destruct Hc as (c & Hc).
  destruct (set_message_acknowledged Focus [] text_numeric_string
              _ (PyStr "12") (of_Z 12) (run capturing camera) c
              Hl Ht Hv Hx Ho Hc)
    as (Hresp & Hcap & _).
  exists c. split; [exact Hc|]. split; [exact Hresp|exact Hcap].
Defined.


(** X14, witness: an unknown type is answered, [[]] raises, the start that
    follows is not handled. *)
Lemma connection_responses_witness :
  ws_control ([(text_bogus, [])] ++ (text_array, []) :: [(text_start, [])])
             [] camera =
  ws_control ([(text_bogus, [])] ++ [(text_array, [])]) [] camera.
Proof.
  assert (He : (ws_control ([(text_bogus, [])] ++ [(text_array, [])]) [] camera).1.2
               = Some (AttributeError "'list' object has no attribute 'get'"))
    by (vm_compute; reflexivity).
  assert (Hlen : length (ws_control ([(text_bogus, [])] ++ [(text_array, [])])
                           [] camera).1.1 = length [(text_bogus, @nil (@bg_label Frame Dev))])
    by (vm_compute; reflexivity).
  exact (proj1 (connection_responses [(text_bogus, [])] text_array []
                  [(text_start, [])] [] camera _ He Hlen)).
Defined.
